(** * Projects controller of the hackathon back end

    A shallow embedding of [src/controllers/ProjectsController.ts]: the
    request handlers [createNewProject], [getProjectByTeamID],
    [getProjectByUserID], [deleteProject] and [enterProject], written as
    functions from a request and a document store to the store after the
    call and the response that was sent.  The second part adds
    [getProjectByID], [getAllProjects], [editProject] and [deletePrize].

    Conventions.
    - An [ObjectId] is represented by its hexadecimal rendering, which is
      what [toString()] returns and what [new ObjectId(s)] reads back.
      Path parameters, query parameters and the [team] field of the body
      are strings that render a well-formed identifier: a malformed one
      makes the driver raise [CastError] before the store is touched, and
      the [catch] block answers [bad(res)].  String-typed parameters are
      never [null], so the [=== null] guards of the handlers cannot fire.
      The handlers are the [try] blocks on such requests; [well_formed_id]
      states the assumption, and a theorem that names the response to a
      request whose identifiers are not those of stored documents takes
      it as a hypothesis.
      Likewise the fields of a body satisfy the schema of the model: a
      body the schema rejects makes [save()] raise [ValidationError],
      which the [catch] block answers with [bad(res)], nothing being
      stored.
    - A collection is the list of its documents in insertion order;
      [findOne] returns the first document that matches.
    - The helpers [bad], [notFound] and [error] of [util/error] only send
      a response; a response records which helper was called and with
      which message. *)

From Stdlib Require Import List String Bool Arith Lia.
Import ListNotations.
Open Scope string_scope.

(** ** Identifiers *)

Record ObjectId : Type := mkObjectId { toString : string }.

Definition oid_eqb (a b : ObjectId) : bool :=
  String.eqb (toString a) (toString b).

(** ** Documents *)

Record User : Type := mkUser {
  user_id : ObjectId;
  admin   : bool
}.

Record Team : Type := mkTeam {
  team_id : ObjectId;
  members : list ObjectId
}.

Record Event : Type := mkEvent {
  event_id : ObjectId
}.

Record Project : Type := mkProject {
  project_id  : ObjectId;
  name        : string;
  description : string;
  event       : ObjectId;
  url         : string;
  slides      : string;
  video       : string;
  team        : ObjectId;
  prizes      : list ObjectId
}.

Record Prize : Type := mkPrize {
  prize_id    : ObjectId;
  prize_event : ObjectId;
  provider    : ObjectId;
  winner      : option ObjectId
}.

(** The document store the handlers talk to. *)
Record Store : Type := mkStore {
  Projects    : list Project;
  Prizes      : list Prize;
  Teams       : list Team;
  tartanHacks : Event
}.

(** ** Requests and responses *)

Record Body : Type := mkBody {
  body_name        : string;
  body_description : string;
  body_url         : string;
  body_slides      : string;
  body_video       : string;
  body_team        : string
}.

Record Request : Type := mkRequest {
  params_id     : string;   (* req.params.id *)
  query_prizeID : string;   (* req.query.prizeID *)
  body          : Body;     (* req.body *)
  locals_user   : User      (* res.locals.user *)
}.

Inductive Response : Type :=
| Json (p : Project)            (* res.json({...project.toJSON()}) *)
| Ok (message : string)         (* res.status(200).json({message}) *)
| Bad (message : option string) (* bad(res, message) *)
| NotFound                      (* notFound(res) *)
| Error.                        (* error(res) *)

Definition bad (message : string) : Response := Bad (Some message).

(** ** The collaborators the controller imports *)

(** Modelled from the spec: [getTartanHacks] of [EventController] is the
    singleton event fetch used by every creation path. *)
Definition getTartanHacks (st : Store) : Event := tartanHacks st.

(** Modelled from the spec: [findUserTeam] of [TeamController] is the
    team directory's lookup of a team by member id; [None] is the [null]
    of a user who belongs to no team. *)
Definition findUserTeam (st : Store) (userId : ObjectId) : option Team :=
  find (fun t => existsb (oid_eqb userId) (members t)) (Teams st).

(** ** Store queries *)

(** [Project.findOne({ team: team, event: event })] *)
Definition team_event_filter (t e : ObjectId) (p : Project) : bool :=
  oid_eqb (team p) t && oid_eqb (event p) e.

Definition Project_findOne_team_event (st : Store) (t e : ObjectId)
  : option Project :=
  find (team_event_filter t e) (Projects st).

(** [Project.findOne({ team: id })] *)
Definition Project_findOne_team (st : Store) (t : ObjectId) : option Project :=
  find (fun p => oid_eqb (team p) t) (Projects st).

(** [Project.findById(id)] and [Prize.findById(id)] *)
Definition Project_findById (st : Store) (id : ObjectId) : option Project :=
  find (fun p => oid_eqb (project_id p) id) (Projects st).

Definition Prize_findById (st : Store) (id : ObjectId) : option Prize :=
  find (fun z => oid_eqb (prize_id z) id) (Prizes st).

(** [project.save()] of a new document *)
Definition Project_save (st : Store) (p : Project) : Store :=
  mkStore (Projects st ++ [p])%list (Prizes st) (Teams st) (tartanHacks st).

(** ** createNewProject *)

Definition msg_duplicate : string :=
  "You already have a project. Please edit or delete your existing project.".
Definition msg_no_team : string :=
  "You must be in a team to create a project.".
Definition msg_not_owner : string :=
  "You can only create projects for your team.".

(** The block guarded by [if (!res.locals.user.admin)]: [None] when the
    caller may go on, otherwise the response that was returned. *)
Definition ownershipGuard (st : Store) (user : User) (team : string)
  : option Response :=
  if negb (admin user) then
    match findUserTeam st (user_id user) with
    | None => Some (bad msg_no_team)
    | Some userTeam =>
        if negb (String.eqb (toString (team_id userTeam)) team)
        then Some (bad msg_not_owner)
        else None
    end
  else None.

(** [newId] is the identifier the driver generates for the new document. *)
Definition createNewProject (newId : ObjectId) (req : Request) (st : Store)
  : Store * Response :=
  let b := body req in
  let team := body_team b in
  let event := getTartanHacks st in
  match Project_findOne_team_event st (mkObjectId team) (event_id event) with
  | Some _ => (st, bad msg_duplicate)
  | None =>
      match ownershipGuard st (locals_user req) team with
      | Some denial => (st, denial)
      | None =>
          let project :=
            mkProject newId (body_name b) (body_description b)
                      (event_id event) (body_url b) (body_slides b)
                      (body_video b) (mkObjectId team) [] in
          (Project_save st project, Json project)
      end
  end.

(** ** getProjectByTeamID and getProjectByUserID *)

Definition getProjectByTeamID (req : Request) (st : Store) : Store * Response :=
  let id := params_id req in
  match Project_findOne_team st (mkObjectId id) with
  | Some result => (st, Json result)
  | None => (st, NotFound)
  end.

(** [req.params.id = value] *)
Definition set_params_id (req : Request) (value : string) : Request :=
  mkRequest value (query_prizeID req) (body req) (locals_user req).

Definition msg_user_no_team : string := "User does not have a team!".

Definition getProjectByUserID (req : Request) (st : Store) : Store * Response :=
  let id := params_id req in
  match findUserTeam st (mkObjectId id) with
  | None => (st, bad msg_user_no_team)
  | Some populatedTeam =>
      getProjectByTeamID
        (set_params_id req (toString (team_id populatedTeam))) st
  end.

(** ** deleteProject *)

(** Removal of the first document that matches, as [findOneAndDelete]
    does. *)
Fixpoint remove_first {A : Type} (f : A -> bool) (l : list A) : list A :=
  match l with
  | [] => []
  | x :: l' => if f x then l' else x :: remove_first f l'
  end.

(** [Project.findByIdAndDelete(id)] *)
Definition Project_findByIdAndDelete (st : Store) (id : ObjectId) : Store :=
  mkStore (remove_first (fun p => oid_eqb (project_id p) id) (Projects st))
          (Prizes st) (Teams st) (tartanHacks st).

Definition msg_deleted : string := "Successfully deleted project.".

Definition deleteProject (req : Request) (st : Store) : Store * Response :=
  let id := params_id req in
  (Project_findByIdAndDelete st (mkObjectId id), Ok msg_deleted).

(** ** enterProject *)

(** [$addToSet] of one value into an array field. *)
Definition addToSet (x : ObjectId) (l : list ObjectId) : list ObjectId :=
  if existsb (oid_eqb x) l then l else (l ++ [x])%list.

(** [$addToSet: { prizes: values }]: an array operand on an array path is
    applied element by element. *)
Definition addToSet_prizes (values : list ObjectId) (p : Project) : Project :=
  mkProject (project_id p) (name p) (description p) (event p) (url p)
            (slides p) (video p) (team p)
            (fold_left (fun acc v => addToSet v acc) values (prizes p)).

(** Update of the first document that matches. *)
Fixpoint update_first {A : Type} (f : A -> bool) (g : A -> A) (l : list A)
  : list A :=
  match l with
  | [] => []
  | x :: l' => if f x then g x :: l' else x :: update_first f g l'
  end.

(** [project.updateOne({ $addToSet: { prizes: values } })]: the update
    is addressed to the stored document with the identifier of
    [project]. *)
Definition Project_updateOne_addToSet (st : Store) (project : Project)
    (values : list ObjectId) : Store :=
  mkStore (update_first (fun p => oid_eqb (project_id p) (project_id project))
                        (addToSet_prizes values) (Projects st))
          (Prizes st) (Teams st) (tartanHacks st).

Definition msg_invalid_project : string := "Invalid Project ID".
Definition msg_invalid_prize : string := "Invalid Prize ID".

Definition enterProject (req : Request) (st : Store) : Store * Response :=
  let prizeID := query_prizeID req in
  let id := params_id req in
  match Project_findById st (mkObjectId id) with
  | None => (st, bad msg_invalid_project)
  | Some project =>
      match Prize_findById st (mkObjectId prizeID) with
      | None => (st, bad msg_invalid_prize)
      | Some prize =>
          let st' := Project_updateOne_addToSet st project [prize_id prize] in
          match Project_findById st' (mkObjectId id) with
          | Some updatedProject => (st', Json updatedProject)
          | None => (st', Error) (* toJSON of null throws; caught *)
          end
      end
  end.

(** ** The error kinds of the specification *)

Inductive ErrorKind : Type :=
| KNotFound | KNotOwner | KNoTeam | KDuplicateProject | KInvalid | KInternal.

(** The kind a response of this controller stands for; [None] for a
    success. *)
Definition errorKind (r : Response) : option ErrorKind :=
  match r with
  | Json _ | Ok _ => None
  | NotFound => Some KNotFound
  | Error => Some KInternal
  | Bad None => Some KInvalid
  | Bad (Some m) =>
      if String.eqb m msg_duplicate then Some KDuplicateProject
      else if String.eqb m msg_no_team then Some KNoTeam
      else if String.eqb m msg_user_no_team then Some KNoTeam
      else if String.eqb m msg_not_owner then Some KNotOwner
      else Some KInvalid
  end.

(** The decision the ownership block of [createNewProject] takes. *)
Inductive Decision : Type :=
| ALLOW
| DENY (reason : option ErrorKind).

Definition authorize (st : Store) (caller : User) (team : string) : Decision :=
  match ownershipGuard st caller team with
  | None => ALLOW
  | Some denial => DENY (errorKind denial)
  end.

(** ** The invariant of the project collection *)

Definition count_for (t e : ObjectId) (st : Store) : nat :=
  List.length (filter (team_event_filter t e) (Projects st)).

Definition one_project_per_team (st : Store) : Prop :=
  forall t e, count_for t e st <= 1.

(** A sequence of [createNewProject] calls, each with the identifier the
    driver generates for it. *)
Fixpoint run_creates (calls : list (ObjectId * Request)) (st : Store) : Store :=
  match calls with
  | [] => st
  | (newId, req) :: rest => run_creates rest (fst (createNewProject newId req st))
  end.

(** ** Well-formed identifiers *)

Definition is_hex_digit (c : Ascii.ascii) : bool :=
  let n := Ascii.nat_of_ascii c in
  (((48 <=? n) && (n <=? 57)) || ((97 <=? n) && (n <=? 102)))%nat%bool.

(** The rendering of an [ObjectId]: 24 lower-case hexadecimal digits. *)
Definition well_formed_id (s : string) : bool :=
  (String.length s =? 24)%nat && forallb is_hex_digit (list_ascii_of_string s).

(** ** A small event used in the examples *)

Definition id_event : string := "64b7e1000000000000000e01".
Definition id_root  : string := "64b7e1000000000000000a00".
Definition id_alice : string := "64b7e1000000000000000a01".
Definition id_bob   : string := "64b7e1000000000000000a02".
Definition id_carol : string := "64b7e1000000000000000a03".
Definition id_teamA : string := "64b7e1000000000000000b01".
Definition id_teamB : string := "64b7e1000000000000000b02".
Definition id_projA : string := "64b7e1000000000000000c01".
Definition id_projB : string := "64b7e1000000000000000c02".
Definition id_new1  : string := "64b7e1000000000000000c03".
Definition id_new2  : string := "64b7e1000000000000000c04".
Definition id_new3  : string := "64b7e1000000000000000c05".
Definition id_gold  : string := "64b7e1000000000000000d01".
Definition id_none  : string := "64b7e1000000000000000d99".
Definition id_sponsor : string := "64b7e1000000000000000f01".

Definition ev : Event := mkEvent (mkObjectId id_event).
Definition alice : User := mkUser (mkObjectId id_alice) false.
Definition bob   : User := mkUser (mkObjectId id_bob) false.
Definition carol : User := mkUser (mkObjectId id_carol) false.
Definition root  : User := mkUser (mkObjectId id_root) true.

Definition teamA : Team := mkTeam (mkObjectId id_teamA) [user_id alice].
Definition teamB : Team := mkTeam (mkObjectId id_teamB) [user_id bob].

Definition projA : Project :=
  mkProject (mkObjectId id_projA) "Alpha" "first" (event_id ev)
            "https://a.example" "sa" "va" (team_id teamA) [].
Definition projB : Project :=
  mkProject (mkObjectId id_projB) "Beta" "second" (event_id ev)
            "https://b.example" "sb" "vb" (team_id teamB) [].
Definition gold : Prize :=
  mkPrize (mkObjectId id_gold) (event_id ev) (mkObjectId id_sponsor) None.

(** No project yet; team A has one; both teams have one.  Carol is in no
    team. *)
Definition empty_store : Store := mkStore [] [gold] [teamA; teamB] ev.
Definition store1 : Store := mkStore [projA] [gold] [teamA; teamB] ev.
Definition store2 : Store := mkStore [projA; projB] [gold] [teamA; teamB] ev.

Definition create_req (u : User) (team : string) : Request :=
  mkRequest "" "" (mkBody "Gamma" "third" "https://c.example" "sc" "vc" team) u.
Definition by_id_req (u : User) (id prizeID team : string) : Request :=
  mkRequest id prizeID (mkBody "" "" "" "" "" team) u.

(** * The other handlers of the controller *)

(** ** getProjectByID and getAllProjects *)

(** The two read handlers answer with [res.json(result)]: the document
    or [null], and the array of all documents. *)
Inductive ReadResponse : Type :=
| JsonResult (result : option Project) (* res.json(result) *)
| JsonList (results : list Project).   (* res.status(200).json(result) *)

Definition getProjectByID (req : Request) (st : Store)
  : Store * ReadResponse :=
  let id := params_id req in
  (st, JsonResult (Project_findById st (mkObjectId id))).

Definition getAllProjects (req : Request) (st : Store)
  : Store * ReadResponse :=
  (st, JsonList (Projects st)).

(** ** deletePrize *)

(** [Prize.findByIdAndDelete(id)] *)
Definition Prize_findByIdAndDelete (st : Store) (id : ObjectId) : Store :=
  mkStore (Projects st)
          (remove_first (fun z => oid_eqb (prize_id z) id) (Prizes st))
          (Teams st) (tartanHacks st).

Definition msg_deleted_prize : string := "Successfully deleted prize.".

Definition deletePrize (req : Request) (st : Store) : Store * Response :=
  let id := params_id req in
  (Prize_findByIdAndDelete st (mkObjectId id), Ok msg_deleted_prize).

(** ** editProject *)

(** The body of an edit request, restricted to the paths of a project
    document (the fields [createNewProject] gives a project): a path that
    is absent from the body is [None]. *)
Record Update : Type := mkUpdate {
  set_name        : option string;
  set_description : option string;
  set_event       : option string;
  set_url         : option string;
  set_slides      : option string;
  set_video       : option string;
  set_team        : option string;
  set_prizes      : option (list string)
}.

Definition or_keep {A : Type} (new : option A) (old : A) : A :=
  match new with
  | Some v => v
  | None => old
  end.

(** [{ $set: body }] applied to a document. *)
Definition apply_set (u : Update) (p : Project) : Project :=
  mkProject (project_id p)
            (or_keep (set_name u) (name p))
            (or_keep (set_description u) (description p))
            (or_keep (option_map mkObjectId (set_event u)) (event p))
            (or_keep (set_url u) (url p))
            (or_keep (set_slides u) (slides p))
            (or_keep (set_video u) (video p))
            (or_keep (option_map mkObjectId (set_team u)) (team p))
            (or_keep (option_map (map mkObjectId) (set_prizes u)) (prizes p)).

(** The identifiers a body carries are well formed, so that the update
    casts. *)
Definition well_formed_update (u : Update) : bool :=
  match set_event u with Some s => well_formed_id s | None => true end
  && match set_team u with Some s => well_formed_id s | None => true end
  && match set_prizes u with
     | Some l => forallb well_formed_id l
     | None => true
     end.

(** [Project.findByIdAndUpdate(id, { $set: body }, { new: true })]: the
    store after the update and the updated document, or [null]. *)
Definition Project_findByIdAndUpdate (st : Store) (id : ObjectId) (u : Update)
  : Store * option Project :=
  (mkStore (update_first (fun p => oid_eqb (project_id p) id) (apply_set u)
                         (Projects st))
           (Prizes st) (Teams st) (tartanHacks st),
   option_map (apply_set u) (Project_findById st id)).

(** [reqBody] is [req.body] of this route.  The response is sent by the
    completion callback; with a [null] result the callback fails on
    [result.toJSON()] before it sends anything, which is the [None] of the
    second component. *)
Definition editProject (reqBody : Update) (req : Request) (st : Store)
  : Store * option Response :=
  let id := params_id req in
  match Project_findByIdAndUpdate st (mkObjectId id) reqBody with
  | (st', Some result) => (st', Some (Json result))
  | (st', None) => (st', None)
  end.

(** ** The document of a creation *)

(** The document [createNewProject] builds with [new Project({...})]. *)
Definition new_project (newId : ObjectId) (req : Request) (st : Store)
  : Project :=
  let b := body req in
  mkProject newId (body_name b) (body_description b)
            (event_id (getTartanHacks st)) (body_url b) (body_slides b)
            (body_video b) (mkObjectId (body_team b)) [].

(** ** Identifiers of stored documents *)

(** The filter [{ _id: i }] on documents whose identifier is [key]. *)
Definition has_key {A : Type} (key : A -> ObjectId) (i : ObjectId) (x : A)
  : bool :=
  oid_eqb (key x) i.


(** The store keeps the [_id] of a collection unique. *)
Definition unique_project_ids (st : Store) : Prop :=
  NoDup (map project_id (Projects st)).


(** Every project lists a prize at most once. *)
Definition prizes_are_sets (st : Store) : Prop :=
  Forall (fun p => NoDup (prizes p)) (Projects st).

(** What one project may differ in after [enterProject] asked for
    [entered]: nothing but its prizes, which keep every earlier entry and
    gain at most [entered]. *)
Definition only_prize_added (entered : ObjectId) (p p' : Project) : Prop :=
  project_id p' = project_id p
  /\ name p' = name p /\ description p' = description p
  /\ event p' = event p /\ url p' = url p /\ slides p' = slides p
  /\ video p' = video p /\ team p' = team p
  /\ (forall z, In z (prizes p) -> In z (prizes p'))
  /\ (forall z, In z (prizes p') -> In z (prizes p) \/ z = entered).

(** Project [q] is stored and entered in prize [z]. *)
Definition entered_in (st : Store) (q z : ObjectId) : Prop :=
  exists p, Project_findById st q = Some p /\ In z (prizes p).

(** ** Sequences of calls *)

(** A call of one of the handlers that write to the store, [editProject]
    apart. *)
Inductive Call : Type :=
| CallCreateNewProject (newId : ObjectId) (req : Request)
| CallEnterProject (req : Request)
| CallDeleteProject (req : Request)
| CallDeletePrize (req : Request).

Definition call (c : Call) (st : Store) : Store * Response :=
  match c with
  | CallCreateNewProject newId req => createNewProject newId req st
  | CallEnterProject req => enterProject req st
  | CallDeleteProject req => deleteProject req st
  | CallDeletePrize req => deletePrize req st
  end.

Fixpoint run (calls : list Call) (st : Store) : Store :=
  match calls with
  | [] => st
  | c :: rest => run rest (fst (call c st))
  end.

(** ** Further example data *)

Definition id_old_event : string := "64b7e1000000000000000e00".
Definition id_projOld   : string := "64b7e1000000000000000c00".

(** A project team A submitted for an earlier event. *)
Definition projOld : Project :=
  mkProject (mkObjectId id_projOld) "Omega" "last year"
            (mkObjectId id_old_event) "https://o.example" "so" "vo"
            (team_id teamA) [].
Definition store_old : Store := mkStore [projOld] [gold] [teamA; teamB] ev.

Definition read_req (u : User) (id : string) : Request :=
  by_id_req u id "" "".

Definition no_update : Update :=
  mkUpdate None None None None None None None None.
Definition move_to_team (t : string) : Update :=
  mkUpdate None None None None None None (Some t) None.

(** * Properties *)

Lemma sample_ids_well_formed :
  forallb well_formed_id
    [id_event; id_root; id_alice; id_bob; id_carol; id_teamA; id_teamB;
     id_projA; id_projB; id_new1; id_new2; id_new3; id_gold; id_none;
     id_sponsor] = true.
Proof. reflexivity. Qed.

Lemma oid_eqb_eq (a b : ObjectId) : oid_eqb a b = true <-> a = b.
Proof.
  unfold oid_eqb. rewrite String.eqb_eq.
  destruct a as [x], b as [y]; simpl. split; congruence.
Qed.

Lemma oid_eqb_refl (a : ObjectId) : oid_eqb a a = true.
Proof. now apply oid_eqb_eq. Qed.

Lemma oid_eqb_neq (a b : ObjectId) : oid_eqb a b = false <-> a <> b.
Proof.
  rewrite <- oid_eqb_eq. destruct (oid_eqb a b); split; congruence.
Qed.

Lemma oid_eqb_sym (a b : ObjectId) : oid_eqb a b = oid_eqb b a.
Proof. unfold oid_eqb. apply String.eqb_sym. Qed.


(** ** Lists as collections *)

Section Collections.
Context {A : Type}.
Variable f : A -> bool.

Lemma find_none_filter_nil (l : list A) :
  find f l = None -> filter f l = [].
Proof.
  induction l as [|x l IH]; simpl; [reflexivity|].
  destruct (f x); [discriminate | exact IH].
Qed.

Lemma in_find_some (l : list A) (x : A) :
  In x l -> f x = true -> exists y, find f l = Some y.
Proof.
  intros Hin Hx. destruct (find f l) as [y|] eqn:E; [now exists y|].
  pose proof (find_none f l E x Hin). congruence.
Qed.

Lemma find_update_first (g : A -> A) (l : list A) :
  (forall x, f (g x) = f x) ->
  find f (update_first f g l) = option_map g (find f l).
Proof.
  intros Hg. induction l as [|x l IH]; simpl; [reflexivity|].
  destruct (f x) eqn:E; simpl.
  - now rewrite Hg, E.
  - now rewrite E.
Qed.

Lemma update_first_idem (g : A -> A) (l : list A) :
  (forall x, f (g x) = f x) -> (forall x, g (g x) = g x) ->
  update_first f g (update_first f g l) = update_first f g l.
Proof.
  intros Hf Hg. induction l as [|x l IH]; simpl; [reflexivity|].
  destruct (f x) eqn:E; simpl.
  - now rewrite Hf, E, Hg.
  - now rewrite E, IH.
Qed.

Lemma update_first_absent (g : A -> A) (l : list A) :
  find f l = None -> update_first f g l = l.
Proof.
  induction l as [|x l IH]; simpl; [reflexivity|].
  destruct (f x); [discriminate|]. intros H. now rewrite IH.
Qed.

Lemma remove_first_absent (l : list A) :
  find f l = None -> remove_first f l = l.
Proof.
  induction l as [|x l IH]; simpl; [reflexivity|].
  destruct (f x); [discriminate|]. intros H. now rewrite IH.
Qed.

Lemma remove_first_present (l : list A) (x : A) :
  find f l = Some x ->
  exists l1 l2, l = (l1 ++ x :: l2)%list /\ remove_first f l = (l1 ++ l2)%list
                /\ find f l1 = None.
Proof.
  induction l as [|y l IH]; simpl; [discriminate|].
  destruct (f y) eqn:E.
  - intros [= ->]. now exists [], l.
  - intros H. destruct (IH H) as (l1 & l2 & -> & Hr & Hn).
    exists (y :: l1), l2. simpl. now rewrite Hr, E.
Qed.
End Collections.

(** ** The invariant of [createNewProject] *)

Lemma team_event_filter_true (t e : ObjectId) (p : Project) :
  team_event_filter t e p = true <-> team p = t /\ event p = e.
Proof.
  unfold team_event_filter. now rewrite andb_true_iff, !oid_eqb_eq.
Qed.

Lemma createNewProject_duplicate (newId : ObjectId) (req : Request)
    (st : Store) (p : Project) :
  In p (Projects st) ->
  team p = mkObjectId (body_team (body req)) ->
  event p = event_id (getTartanHacks st) ->
  createNewProject newId req st = (st, bad msg_duplicate).
Proof.
  intros Hin Ht He. unfold createNewProject, Project_findOne_team_event.
  destruct (in_find_some (team_event_filter
              (mkObjectId (body_team (body req)))
              (event_id (getTartanHacks st))) (Projects st) p Hin) as [q ->].
  - now apply team_event_filter_true.
  - reflexivity.
Qed.

Lemma createNewProject_preserves (newId : ObjectId) (req : Request)
    (st : Store) :
  one_project_per_team st ->
  one_project_per_team (fst (createNewProject newId req st)).
Proof.
  intros Hinv. unfold createNewProject.
  destruct (Project_findOne_team_event _ _ _) as [q|] eqn:Hfind; [exact Hinv|].
  destruct (ownershipGuard _ _ _) as [denial|]; [exact Hinv|].
  intros t e. unfold count_for. simpl.
  rewrite filter_app, length_app. simpl.
  match goal with |- context [team_event_filter t e ?q] =>
    destruct (team_event_filter t e q) eqn:E end.
  - apply team_event_filter_true in E. simpl in E. destruct E as [<- <-].
    unfold Project_findOne_team_event in Hfind.
    rewrite (find_none_filter_nil _ _ Hfind). simpl. lia.
  - specialize (Hinv t e). unfold count_for in Hinv. simpl. lia.
Qed.

Lemma run_creates_preserves (calls : list (ObjectId * Request)) :
  forall st, one_project_per_team st ->
             one_project_per_team (run_creates calls st).
Proof.
  induction calls as [|[newId req] rest IH]; intros st Hinv; simpl.
  - exact Hinv.
  - apply IH. now apply createNewProject_preserves.
Qed.

(** C1. Starting from a collection with at most one project per
    (team, event) pair, any sequence of [createNewProject] calls leaves at
    most one project per pair; and a further call for a pair that already
    has a project is answered with the duplicate-project rejection and
    inserts nothing. *)
Theorem createNewProject_at_most_one_project
    (st : Store) (calls : list (ObjectId * Request))
    (newId : ObjectId) (req : Request) :
  one_project_per_team st ->
  let st' := run_creates calls st in
  one_project_per_team st'
  /\ (forall p, In p (Projects st') ->
                team p = mkObjectId (body_team (body req)) ->
                event p = event_id (getTartanHacks st') ->
                createNewProject newId req st' = (st', bad msg_duplicate)
                /\ errorKind (snd (createNewProject newId req st'))
                   = Some KDuplicateProject).
Proof.
  intros Hinv st'. split.
  - now apply run_creates_preserves.
  - intros p Hin Ht He.
    rewrite (createNewProject_duplicate newId req st' p Hin Ht He).
    split; reflexivity.
Qed.

Lemma createNewProject_at_most_one_project_witness :
  one_project_per_team empty_store
  /\ let st' := run_creates [(mkObjectId id_new1, create_req root id_teamA);
                             (mkObjectId id_new2, create_req alice id_teamA)]
                            empty_store in
     one_project_per_team st'
     /\ (forall p, In p (Projects st') ->
                   team p = mkObjectId (body_team (body (create_req alice id_teamA))) ->
                   event p = event_id (getTartanHacks st') ->
                   createNewProject (mkObjectId id_new3) (create_req alice id_teamA) st'
                   = (st', bad msg_duplicate)
                   /\ errorKind (snd (createNewProject (mkObjectId id_new3)
                                        (create_req alice id_teamA) st'))
                      = Some KDuplicateProject).
Proof.
  split.
  - intros t e. unfold count_for. simpl. lia.
  - apply (createNewProject_at_most_one_project empty_store
             [(mkObjectId id_new1, create_req root id_teamA);
              (mkObjectId id_new2, create_req alice id_teamA)]
             (mkObjectId id_new3) (create_req alice id_teamA)).
    intros t e. unfold count_for. simpl. lia.
Defined.

(** ** The ownership block of [createNewProject] *)

Lemma ownershipGuard_admin (st : Store) (caller : User) (team : string) :
  admin caller = true -> ownershipGuard st caller team = None.
Proof. intros H. unfold ownershipGuard. now rewrite H. Qed.

Lemma ownershipGuard_no_team (st : Store) (caller : User) (team : string) :
  admin caller = false -> findUserTeam st (user_id caller) = None ->
  ownershipGuard st caller team = Some (bad msg_no_team).
Proof. intros Ha Ht. unfold ownershipGuard. now rewrite Ha, Ht. Qed.

Lemma ownershipGuard_other_team (st : Store) (caller : User) (team : string)
    (userTeam : Team) :
  admin caller = false -> findUserTeam st (user_id caller) = Some userTeam ->
  toString (team_id userTeam) <> team ->
  ownershipGuard st caller team = Some (bad msg_not_owner).
Proof.
  intros Ha Ht Hne. unfold ownershipGuard. rewrite Ha, Ht. simpl.
  apply String.eqb_neq in Hne. now rewrite Hne.
Qed.

Lemma createNewProject_fresh_pair (newId : ObjectId) (req : Request)
    (st : Store) :
  Project_findOne_team_event st (mkObjectId (body_team (body req)))
                             (event_id (getTartanHacks st)) = None ->
  createNewProject newId req st =
  match ownershipGuard st (locals_user req) (body_team (body req)) with
  | Some denial => (st, denial)
  | None =>
      let b := body req in
      let project :=
        mkProject newId (body_name b) (body_description b)
                  (event_id (getTartanHacks st)) (body_url b) (body_slides b)
                  (body_video b) (mkObjectId (body_team b)) [] in
      (Project_save st project, Json project)
  end.
Proof. intros H. unfold createNewProject. now rewrite H. Qed.

Lemma createNewProject_denied_keeps_store (newId : ObjectId) (req : Request)
    (st : Store) :
  authorize st (locals_user req) (body_team (body req)) <> ALLOW ->
  fst (createNewProject newId req st) = st.
Proof.
  unfold authorize, createNewProject. intros H.
  destruct (Project_findOne_team_event _ _ _); [reflexivity|].
  destruct (ownershipGuard _ _ _); [reflexivity | congruence].
Qed.

Lemma createNewProject_fresh_pair_not_owner (newId : ObjectId) (req : Request)
    (st : Store) (userTeam : Team) :
  Project_findOne_team_event st (mkObjectId (body_team (body req)))
                             (event_id (getTartanHacks st)) = None ->
  admin (locals_user req) = false ->
  findUserTeam st (user_id (locals_user req)) = Some userTeam ->
  team_id userTeam <> mkObjectId (body_team (body req)) ->
  createNewProject newId req st = (st, bad msg_not_owner).
Proof.
  intros Hfree Ha Ht Hne.
  rewrite (createNewProject_fresh_pair newId req st Hfree).
  rewrite (ownershipGuard_other_team st _ _ userTeam Ha Ht); [reflexivity|].
  intros Heq. apply Hne. rewrite <- Heq. now destruct (team_id userTeam).
Qed.

Lemma createNewProject_fresh_pair_no_team (newId : ObjectId) (req : Request)
    (st : Store) :
  Project_findOne_team_event st (mkObjectId (body_team (body req)))
                             (event_id (getTartanHacks st)) = None ->
  admin (locals_user req) = false ->
  findUserTeam st (user_id (locals_user req)) = None ->
  createNewProject newId req st = (st, bad msg_no_team).
Proof.
  intros Hfree Ha Ht.
  rewrite (createNewProject_fresh_pair newId req st Hfree).
  now rewrite (ownershipGuard_no_team st _ _ Ha Ht).
Qed.

(** C3. An admin caller passes the ownership block of [createNewProject]
    for every target team and whatever team the admin is in: the decision
    is ALLOW, the response is never the no-team or the not-owner denial,
    and when the team of the body is a well-formed identifier and the
    targeted (team, event) pair has no project yet the project is created
    for the team that was asked for. *)
Theorem admin_bypasses_ownership
    (st : Store) (newId : ObjectId) (req : Request) :
  admin (locals_user req) = true ->
  (forall team, authorize st (locals_user req) team = ALLOW)
  /\ errorKind (snd (createNewProject newId req st)) <> Some KNoTeam
  /\ errorKind (snd (createNewProject newId req st)) <> Some KNotOwner
  /\ (well_formed_id (body_team (body req)) = true ->
      Project_findOne_team_event st (mkObjectId (body_team (body req)))
                                 (event_id (getTartanHacks st)) = None ->
      exists project,
        createNewProject newId req st = (Project_save st project, Json project)
        /\ team project = mkObjectId (body_team (body req))
        /\ event project = event_id (getTartanHacks st)
        /\ project_id project = newId).
Proof.
  intros Hadmin.
  assert (Hallow : forall team, ownershipGuard st (locals_user req) team = None)
    by (intros team; now apply ownershipGuard_admin).
  split; [|split; [|split]].
  - intros team. unfold authorize. now rewrite Hallow.
  - unfold createNewProject.
    destruct (Project_findOne_team_event _ _ _); [simpl; discriminate|].
    rewrite Hallow. simpl. discriminate.
  - unfold createNewProject.
    destruct (Project_findOne_team_event _ _ _); [simpl; discriminate|].
    rewrite Hallow. simpl. discriminate.
  - intros _ Hnone. rewrite (createNewProject_fresh_pair newId req st Hnone).
    rewrite Hallow. eexists. split; [reflexivity|]. simpl. auto.
Qed.

Lemma admin_bypasses_ownership_witness :
  admin (locals_user (create_req root id_teamB)) = true
  /\ (forall team, authorize store1 (locals_user (create_req root id_teamB)) team
                   = ALLOW)
  /\ errorKind (snd (createNewProject (mkObjectId id_new1)
                       (create_req root id_teamB) store1)) <> Some KNoTeam
  /\ well_formed_id (body_team (body (create_req root id_teamB))) = true
  /\ exists project,
       createNewProject (mkObjectId id_new1) (create_req root id_teamB) store1
       = (Project_save store1 project, Json project)
       /\ team project = team_id teamB.
Proof.
  split; [reflexivity|].
  pose proof (admin_bypasses_ownership store1 (mkObjectId id_new1)
                (create_req root id_teamB) eq_refl) as (H1 & H2 & _ & H4).
  split; [exact H1|]. split; [exact H2|]. split; [reflexivity|].
  destruct (H4 eq_refl eq_refl) as (project & Hc & Ht & _).
  exists project. split; [exact Hc | exact Ht].
Defined.

(** C2. The duplicate check of [createNewProject] runs before the
    ownership block.  Bob belongs to team B and Carol to no team; the
    ownership block denies both for team A, yet, team A having a project
    for the event, both are answered with the duplicate-project rejection
    that speaks of the caller's own project. *)
Theorem createNewProject_duplicate_before_ownership :
  authorize store1 bob id_teamA = DENY (Some KNotOwner)
  /\ authorize store1 carol id_teamA = DENY (Some KNoTeam)
  /\ createNewProject (mkObjectId id_new1) (create_req bob id_teamA) store1
     = (store1, bad msg_duplicate)
  /\ createNewProject (mkObjectId id_new1) (create_req carol id_teamA) store1
     = (store1, bad msg_duplicate)
  /\ errorKind (bad msg_duplicate) = Some KDuplicateProject.
Proof. repeat split. Qed.

(** C4. Alice belongs to team A and asks to create a project for team
    B, which already has one: the ownership block would deny her with the
    not-owner reason, but the response is the duplicate-project rejection.
    On the store where team B has no project the same request is denied
    with the not-owner reason. *)
Theorem createNewProject_other_team_with_project :
  findUserTeam store2 (user_id alice) = Some teamA
  /\ toString (team_id teamA) <> id_teamB
  /\ snd (createNewProject (mkObjectId id_new1) (create_req alice id_teamB) store2)
     = bad msg_duplicate
  /\ errorKind (snd (createNewProject (mkObjectId id_new1)
                       (create_req alice id_teamB) store2)) <> Some KNotOwner
  /\ snd (createNewProject (mkObjectId id_new1) (create_req alice id_teamB) store1)
     = bad msg_not_owner.
Proof. repeat split; simpl; discriminate. Qed.

(** C5. Carol is not an admin and belongs to no team; she asks to create
    a project for team B, which already has one: the response is the
    duplicate-project rejection, not the no-team denial.  The no-team and
    the not-owner denials themselves are different responses of different
    kinds. *)
Theorem createNewProject_no_team_with_project :
  admin carol = false
  /\ findUserTeam store2 (user_id carol) = None
  /\ snd (createNewProject (mkObjectId id_new1) (create_req carol id_teamB) store2)
     = bad msg_duplicate
  /\ errorKind (snd (createNewProject (mkObjectId id_new1)
                       (create_req carol id_teamB) store2)) <> Some KNoTeam
  /\ bad msg_no_team <> bad msg_not_owner
  /\ errorKind (bad msg_no_team) <> errorKind (bad msg_not_owner).
Proof. repeat split; simpl; discriminate. Qed.

(** ** Prize entry *)

Lemma addToSet_In (x : ObjectId) (l : list ObjectId) : In x (addToSet x l).
Proof.
  unfold addToSet. destruct (existsb (oid_eqb x) l) eqn:E.
  - apply existsb_exists in E. destruct E as (y & Hin & Heq).
    apply oid_eqb_eq in Heq. now subst.
  - apply in_or_app. right. now left.
Qed.

Lemma addToSet_present (x : ObjectId) (l : list ObjectId) :
  In x l -> addToSet x l = l.
Proof.
  intros Hin. unfold addToSet.
  replace (existsb (oid_eqb x) l) with true; [reflexivity|].
  symmetry. apply existsb_exists. exists x. split; [exact Hin|].
  apply oid_eqb_refl.
Qed.

Lemma addToSet_idem (x : ObjectId) (l : list ObjectId) :
  addToSet x (addToSet x l) = addToSet x l.
Proof. apply addToSet_present, addToSet_In. Qed.

Lemma addToSet_prizes_idem (x : ObjectId) (p : Project) :
  addToSet_prizes [x] (addToSet_prizes [x] p) = addToSet_prizes [x] p.
Proof. unfold addToSet_prizes. simpl. now rewrite addToSet_idem. Qed.

Lemma Project_findById_id (st : Store) (id : ObjectId) (p : Project) :
  Project_findById st id = Some p -> project_id p = id.
Proof.
  intros H. apply find_some in H. destruct H as [_ H].
  now apply oid_eqb_eq in H.
Qed.

Lemma Project_findById_updateOne (st : Store) (id : ObjectId)
    (project : Project) (values : list ObjectId) :
  Project_findById st id = Some project ->
  Project_findById (Project_updateOne_addToSet st project values) id
  = Some (addToSet_prizes values project).
Proof.
  intros H. pose proof (Project_findById_id st id project H) as Hid.
  unfold Project_findById, Project_updateOne_addToSet in *. simpl.
  rewrite Hid, find_update_first by reflexivity. now rewrite H.
Qed.

Lemma enterProject_success (st : Store) (req : Request)
    (project : Project) (prize : Prize) :
  Project_findById st (mkObjectId (params_id req)) = Some project ->
  Prize_findById st (mkObjectId (query_prizeID req)) = Some prize ->
  enterProject req st
  = (Project_updateOne_addToSet st project [prize_id prize],
     Json (addToSet_prizes [prize_id prize] project)).
Proof.
  intros Hp Hz. unfold enterProject. rewrite Hp, Hz.
  now rewrite (Project_findById_updateOne st _ project _ Hp).
Qed.

Lemma Project_updateOne_again (st : Store) (project : Project)
    (x : ObjectId) :
  let st1 := Project_updateOne_addToSet st project [x] in
  Project_updateOne_addToSet st1 (addToSet_prizes [x] project) [x] = st1.
Proof.
  unfold Project_updateOne_addToSet. simpl. f_equal.
  apply update_first_idem; [reflexivity|].
  intros p. apply addToSet_prizes_idem.
Qed.

(** C6. When the project and the prize exist, [enterProject] succeeds
    with the project holding the prize; applied a second time it succeeds
    again, leaves the store as the first call left it and answers with the
    same project, so the stored prizes are those of a single entry. *)
Theorem enterProject_idempotent
    (st : Store) (req : Request) (project : Project) (prize : Prize) :
  Project_findById st (mkObjectId (params_id req)) = Some project ->
  Prize_findById st (mkObjectId (query_prizeID req)) = Some prize ->
  let st1 := fst (enterProject req st) in
  let entered := addToSet_prizes [prize_id prize] project in
  snd (enterProject req st) = Json entered
  /\ In (prize_id prize) (prizes entered)
  /\ Project_findById st1 (mkObjectId (params_id req)) = Some entered
  /\ fst (enterProject req st1) = st1
  /\ snd (enterProject req st1) = Json entered
  /\ errorKind (snd (enterProject req st1)) = None.
Proof.
  intros Hp Hz st1 entered.
  pose proof (enterProject_success st req project prize Hp Hz) as H1.
  assert (Hst1 : st1 = Project_updateOne_addToSet st project [prize_id prize])
    by (unfold st1; now rewrite H1).
  assert (Hp1 : Project_findById st1 (mkObjectId (params_id req)) = Some entered)
    by (rewrite Hst1; now apply Project_findById_updateOne).
  assert (Hz1 : Prize_findById st1 (mkObjectId (query_prizeID req)) = Some prize)
    by (rewrite Hst1; exact Hz).
  pose proof (enterProject_success st1 req entered prize Hp1 Hz1) as H2.
  assert (He : addToSet_prizes [prize_id prize] entered = entered)
    by apply addToSet_prizes_idem.
  rewrite He in H2. rewrite H2, H1. cbn [fst snd errorKind].
  repeat split; try assumption.
  - unfold entered. simpl. apply addToSet_In.
  - rewrite Hst1. apply Project_updateOne_again.
Qed.

Lemma enterProject_idempotent_witness :
  let req := by_id_req bob id_projA id_gold "" in
  let st1 := fst (enterProject req store1) in
  fst (enterProject req st1) = st1
  /\ snd (enterProject req st1) = snd (enterProject req store1).
Proof.
  intros req st1.
  destruct (enterProject_idempotent store1 req projA gold eq_refl eq_refl)
    as (H1 & _ & _ & H2 & H3 & _).
  cbv zeta in H1, H2, H3. fold req in H1, H2, H3. fold st1 in H2, H3.
  split; [exact H2|]. now rewrite H1, H3.
Defined.

(** C7. For well-formed identifiers, when the project reference or the
    prize reference names no stored document, [enterProject] leaves the
    store, with every project's prizes, as it was and answers through
    [bad]: with the invalid-project message when the project is missing,
    with the invalid-prize message when the project is stored and the prize
    is missing.  The answer is not the not-found response. *)
Theorem enterProject_missing_reference (st : Store) (req : Request) :
  well_formed_id (params_id req) = true ->
  well_formed_id (query_prizeID req) = true ->
  Project_findById st (mkObjectId (params_id req)) = None
  \/ Prize_findById st (mkObjectId (query_prizeID req)) = None ->
  fst (enterProject req st) = st
  /\ snd (enterProject req st)
     = match Project_findById st (mkObjectId (params_id req)) with
       | None => bad msg_invalid_project
       | Some _ => bad msg_invalid_prize
       end
  /\ snd (enterProject req st) <> NotFound.
Proof.
  intros _ _ H. unfold enterProject.
  destruct (Project_findById st _) as [project|] eqn:Hp.
  - destruct H as [H|H]; [discriminate|]. rewrite H. simpl.
    repeat split. discriminate.
  - simpl. repeat split. discriminate.
Qed.

Lemma enterProject_missing_reference_witness :
  fst (enterProject (by_id_req alice id_projA id_none "") store1) = store1
  /\ snd (enterProject (by_id_req alice id_projA id_none "") store1)
     = bad msg_invalid_prize.
Proof.
  destruct (enterProject_missing_reference store1
              (by_id_req alice id_projA id_none "") eq_refl eq_refl
              (or_intror eq_refl))
    as (H1 & H2 & _).
  split; [exact H1 | exact H2].
Defined.

(** The prize reference of this request names no stored prize, and the
    answer is the invalid-prize message sent through [bad], which is
    neither the not-found response nor of the not-found kind. *)
Lemma enterProject_missing_prize_not_NotFound :
  well_formed_id id_projA = true
  /\ well_formed_id id_none = true
  /\ Prize_findById store1 (mkObjectId id_none) = None
  /\ enterProject (by_id_req alice id_projA id_none "") store1
     = (store1, bad msg_invalid_prize)
  /\ snd (enterProject (by_id_req alice id_projA id_none "") store1)
     <> NotFound
  /\ errorKind (snd (enterProject (by_id_req alice id_projA id_none "")
                       store1)) <> Some KNotFound.
Proof. repeat split; simpl; discriminate. Qed.

(** ** Look-up by user id *)

Lemma ObjectId_eta (i : ObjectId) : mkObjectId (toString i) = i.
Proof. now destruct i. Qed.

Lemma getProjectByUserID_spec (req : Request) (st : Store) :
  getProjectByUserID req st
  = (st, match findUserTeam st (mkObjectId (params_id req)) with
         | None => bad msg_user_no_team
         | Some populatedTeam =>
             match Project_findOne_team st (team_id populatedTeam) with
             | Some result => Json result
             | None => NotFound
             end
         end).
Proof.
  unfold getProjectByUserID, getProjectByTeamID.
  destruct (findUserTeam st _) as [t|]; [|reflexivity].
  simpl. rewrite ObjectId_eta.
  now destruct (Project_findOne_team st (team_id t)).
Qed.

(** C8. The response of [getProjectByUserID] is a function of the user
    id in the path and of the store alone: two requests with the same user
    id, whatever team id the body, the query or the caller carry, get the
    same response, and the store is not changed.  For a well-formed user
    id the team is the one [findUserTeam] resolves for that user id; a
    project that is returned belongs to that team; a user with no team
    gets the no-team rejection. *)
Theorem getProjectByUserID_resolves_own_team
    (st : Store) (req forged : Request) :
  params_id forged = params_id req ->
  getProjectByUserID forged st = getProjectByUserID req st
  /\ fst (getProjectByUserID req st) = st
  /\ (well_formed_id (params_id req) = true ->
      findUserTeam st (mkObjectId (params_id req)) = None ->
      snd (getProjectByUserID req st) = bad msg_user_no_team
      /\ errorKind (snd (getProjectByUserID req st)) = Some KNoTeam)
  /\ (well_formed_id (params_id req) = true ->
      forall userTeam,
        findUserTeam st (mkObjectId (params_id req)) = Some userTeam ->
        snd (getProjectByUserID req st)
        = snd (getProjectByTeamID
                 (set_params_id req (toString (team_id userTeam))) st)
        /\ forall p, snd (getProjectByUserID req st) = Json p ->
                     team p = team_id userTeam /\ In p (Projects st)).
Proof.
  intros Hid. rewrite !getProjectByUserID_spec, Hid. simpl.
  split; [reflexivity|]. split; [reflexivity|]. split.
  - intros _ ->. split; reflexivity.
  - intros _ userTeam ->. unfold getProjectByTeamID. simpl.
    rewrite ObjectId_eta.
    destruct (Project_findOne_team st (team_id userTeam)) as [q|] eqn:E;
      simpl; split; try reflexivity; intros p [= <-].
    apply find_some in E. destruct E as [Hin Heq].
    apply oid_eqb_eq in Heq. now split.
Qed.

Lemma getProjectByUserID_resolves_own_team_witness :
  getProjectByUserID (by_id_req bob id_alice "" id_teamB) store2
  = getProjectByUserID (by_id_req alice id_alice "" id_teamA) store2
  /\ snd (getProjectByUserID (by_id_req alice id_alice "" id_teamA) store2)
     = Json projA
  /\ snd (getProjectByUserID (by_id_req bob id_carol "" id_teamB) store2)
     = bad msg_user_no_team.
Proof.
  split; [|split].
  - apply (getProjectByUserID_resolves_own_team store2
             (by_id_req alice id_alice "" id_teamA)
             (by_id_req bob id_alice "" id_teamB)).
    reflexivity.
  - reflexivity.
  - apply (getProjectByUserID_resolves_own_team store2
             (by_id_req bob id_carol "" id_teamB)
             (by_id_req bob id_carol "" id_teamB) eq_refl);
      reflexivity.
Defined.

(** ** Prize entry and the caller *)

(** C9. [enterProject] reads the project id of the path and the prize
    id of the query and nothing else of the request: two requests with the
    same two ids, whoever the callers are and whatever teams they belong
    to, produce the same response and the same store. *)
Theorem enterProject_ignores_caller (st : Store) (req1 req2 : Request) :
  params_id req1 = params_id req2 ->
  query_prizeID req1 = query_prizeID req2 ->
  enterProject req1 st = enterProject req2 st.
Proof.
  intros Hid Hz. unfold enterProject. now rewrite Hid, Hz.
Qed.

Lemma enterProject_ignores_caller_witness :
  enterProject (by_id_req root id_projA id_gold "") store2
  = enterProject (by_id_req bob id_projA id_gold id_teamB) store2
  /\ exists p, snd (enterProject (by_id_req bob id_projA id_gold id_teamB) store2) = Json p
               /\ team p = team_id teamA
               /\ findUserTeam store2 (user_id bob) = Some teamB.
Proof.
  split.
  - apply (enterProject_ignores_caller store2
             (by_id_req root id_projA id_gold "") (by_id_req bob id_projA id_gold id_teamB));
      reflexivity.
  - eexists. repeat split.
Defined.

(** ** Deletion *)

(** C10. For every well-formed project id, [deleteProject] answers with
    the success message.  The prizes (with their winners), the teams and
    the event are untouched.  When no project has the id the store is
    unchanged; otherwise exactly the first project with that id is taken
    out of the collection and all the others stay, in their order. *)
Theorem deleteProject_unconditional (st : Store) (req : Request) :
  well_formed_id (params_id req) = true ->
  let id := mkObjectId (params_id req) in
  let st' := fst (deleteProject req st) in
  snd (deleteProject req st) = Ok msg_deleted
  /\ errorKind (snd (deleteProject req st)) = None
  /\ Prizes st' = Prizes st
  /\ Teams st' = Teams st
  /\ tartanHacks st' = tartanHacks st
  /\ (Project_findById st id = None -> st' = st)
  /\ (forall p, Project_findById st id = Some p ->
        project_id p = id
        /\ exists l1 l2, Projects st = (l1 ++ p :: l2)%list
                         /\ Projects st' = (l1 ++ l2)%list)
  /\ List.length (Projects st) <= S (List.length (Projects st')).
Proof.
  intros _ id st'.
  assert (Hst' : st' = Project_findByIdAndDelete st id) by reflexivity.
  clearbody st'. subst st'. unfold deleteProject. cbn [fst snd errorKind].
  split; [reflexivity|]. split; [reflexivity|].
  split; [reflexivity|]. split; [reflexivity|]. split; [reflexivity|].
  assert (Hnone : Project_findById st id = None ->
                  Project_findByIdAndDelete st id = st).
  { intros H. unfold Project_findByIdAndDelete.
    unfold Project_findById in H. rewrite (remove_first_absent _ _ H).
    now destruct st. }
  assert (Hsome : forall p, Project_findById st id = Some p ->
            project_id p = id
            /\ exists l1 l2, Projects st = (l1 ++ p :: l2)%list
                             /\ Projects (Project_findByIdAndDelete st id)
                                = (l1 ++ l2)%list).
  { intros p H. split; [now apply (Project_findById_id st)|].
    destruct (remove_first_present _ _ p H) as (l1 & l2 & H1 & H2 & _).
    exists l1, l2. split; [exact H1 | exact H2]. }
  split; [exact Hnone|]. split; [exact Hsome|].
  destruct (Project_findById st id) as [p|] eqn:E.
  - destruct (Hsome p eq_refl) as (_ & l1 & l2 & -> & ->).
    rewrite !length_app. simpl. lia.
  - rewrite (Hnone eq_refl). lia.
Qed.

Lemma deleteProject_unconditional_witness :
  snd (deleteProject (read_req bob id_none) store2) = Ok msg_deleted
  /\ fst (deleteProject (read_req bob id_none) store2) = store2
  /\ snd (deleteProject (read_req bob id_projA) store2) = Ok msg_deleted
  /\ Prizes (fst (deleteProject (read_req bob id_projA) store2))
     = Prizes store2.
Proof.
  destruct (deleteProject_unconditional store2 (read_req bob id_none) eq_refl)
    as (H1 & _ & _ & _ & _ & H6 & _).
  destruct (deleteProject_unconditional store2 (read_req bob id_projA) eq_refl)
    as (H1' & _ & H3' & _).
  split; [exact H1|]. split; [exact (H6 eq_refl)|].
  split; [exact H1' | exact H3'].
Defined.

(** * Further properties of the handlers *)

(** ** More on collections *)

Section MoreCollections.
Context {A : Type}.

Lemma find_app_last (f : A -> bool) (l : list A) (x : A) :
  find f (l ++ [x]) =
  match find f l with
  | Some y => Some y
  | None => if f x then Some x else None
  end.
Proof.
  induction l as [|y l IH]; simpl; [reflexivity|].
  destruct (f y); [reflexivity | exact IH].
Qed.

Lemma filter_update_first_length (f h : A -> bool) (g : A -> A) (l : list A) :
  (forall x, h (g x) = h x) ->
  List.length (filter h (update_first f g l)) = List.length (filter h l).
Proof.
  intros Hh. induction l as [|x l IH]; simpl; [reflexivity|].
  destruct (f x); simpl.
  - rewrite Hh. now destruct (h x).
  - destruct (h x); simpl; now rewrite IH.
Qed.

Lemma map_update_first {B : Type} (k : A -> B) (f : A -> bool) (g : A -> A)
    (l : list A) :
  (forall x, k (g x) = k x) -> map k (update_first f g l) = map k l.
Proof.
  intros Hk. induction l as [|x l IH]; simpl; [reflexivity|].
  destruct (f x); simpl; [now rewrite Hk | now rewrite IH].
Qed.

Lemma Forall2_update_first (R : A -> A -> Prop) (f : A -> bool) (g : A -> A)
    (l : list A) :
  (forall x, R x x) -> (forall x, R x (g x)) ->
  Forall2 R l (update_first f g l).
Proof.
  intros Hrefl Hg. induction l as [|x l IH]; simpl; [constructor|].
  destruct (f x); constructor; auto.
  clear IH. induction l; constructor; auto.
Qed.

Lemma Forall_update_first (P : A -> Prop) (f : A -> bool) (g : A -> A)
    (l : list A) :
  (forall x, P x -> P (g x)) -> Forall P l -> Forall P (update_first f g l).
Proof.
  intros Hg. induction 1 as [|x l Hx Hl IH]; simpl; [constructor|].
  destruct (f x); constructor; auto.
Qed.

Lemma filter_remove_first_length (f h : A -> bool) (l : list A) :
  List.length (filter h (remove_first f l)) <= List.length (filter h l).
Proof.
  induction l as [|x l IH]; simpl; [lia|].
  destruct (f x); simpl; destruct (h x); simpl; lia.
Qed.

Lemma remove_first_incl (f : A -> bool) (l : list A) (x : A) :
  In x (remove_first f l) -> In x l.
Proof.
  induction l as [|y l IH]; simpl; [tauto|].
  destruct (f y); simpl; tauto.
Qed.

Lemma NoDup_map_remove_first {B : Type} (k : A -> B) (f : A -> bool)
    (l : list A) :
  NoDup (map k l) -> NoDup (map k (remove_first f l)).
Proof.
  induction l as [|x l IH]; simpl; intros H; [constructor|].
  inversion H as [|? ? Hnin Hnd]; subst.
  destruct (f x); [exact Hnd|]. simpl. constructor; [|now apply IH].
  intros Hin. apply Hnin. apply in_map_iff in Hin.
  destruct Hin as (y & <- & Hy). apply in_map. now apply remove_first_incl in Hy.
Qed.
End MoreCollections.

(** Documents looked up by a key that the store keeps unique. *)
Section Keyed.
Context {A : Type}.
Variable key : A -> ObjectId.

Lemma find_key_absent (i : ObjectId) (l : list A) :
  ~ In i (map key l) -> find (has_key key i) l = None.
Proof.
  induction l as [|x l IH]; simpl; [reflexivity|]. intros H.
  unfold has_key at 1. destruct (oid_eqb (key x) i) eqn:E.
  - apply oid_eqb_eq in E. tauto.
  - apply IH. tauto.
Qed.

Lemma find_key_none_not_in (i : ObjectId) (l : list A) :
  find (has_key key i) l = None -> ~ In i (map key l).
Proof.
  intros H Hin. apply in_map_iff in Hin. destruct Hin as (x & Hx & Hin).
  pose proof (find_none _ _ H x Hin) as E. unfold has_key in E.
  rewrite Hx, oid_eqb_refl in E. discriminate.
Qed.

Lemma find_remove_first_key (i : ObjectId) (l : list A) :
  NoDup (map key l) -> find (has_key key i) (remove_first (has_key key i) l) = None.
Proof.
  induction l as [|x l IH]; simpl; intros H; [reflexivity|].
  inversion H as [|? ? Hnin Hnd]; subst.
  unfold has_key at 2. destruct (oid_eqb (key x) i) eqn:E.
  - apply oid_eqb_eq in E. subst i. now apply find_key_absent.
  - simpl. unfold has_key at 1. rewrite E. now apply IH.
Qed.

Lemma find_remove_first_other (i j : ObjectId) (l : list A) :
  i <> j -> find (has_key key j) (remove_first (has_key key i) l) = find (has_key key j) l.
Proof.
  intros Hne. induction l as [|x l IH]; simpl; [reflexivity|].
  unfold has_key at 2 4. destruct (oid_eqb (key x) i) eqn:E.
  - apply oid_eqb_eq in E. subst i.
    apply oid_eqb_neq in Hne. now rewrite Hne.
  - simpl. unfold has_key at 1. destruct (oid_eqb (key x) j); [reflexivity|].
    exact IH.
Qed.

Lemma find_update_first_other (i j : ObjectId) (g : A -> A) (l : list A) :
  (forall x, key (g x) = key x) -> i <> j ->
  find (has_key key j) (update_first (has_key key i) g l) = find (has_key key j) l.
Proof.
  intros Hg Hne. induction l as [|x l IH]; simpl; [reflexivity|].
  unfold has_key at 2 4. destruct (oid_eqb (key x) i) eqn:E; simpl.
  - unfold has_key at 1. rewrite Hg. apply oid_eqb_eq in E. subst i.
    apply oid_eqb_neq in Hne. now rewrite Hne.
  - unfold has_key at 1. destruct (oid_eqb (key x) j); [reflexivity|].
    exact IH.
Qed.
End Keyed.

(** ** Creation: who may insert, and what creation leads to *)

Lemma ownershipGuard_allows (st : Store) (caller : User) (team : string) :
  ownershipGuard st caller team = None <->
  admin caller = true
  \/ exists userTeam, findUserTeam st (user_id caller) = Some userTeam
                      /\ toString (team_id userTeam) = team.
Proof.
  unfold ownershipGuard. destruct (admin caller); simpl.
  - split; auto.
  - destruct (findUserTeam st (user_id caller)) as [t|].
    + destruct (String.eqb (toString (team_id t)) team) eqn:E; simpl.
      * apply String.eqb_eq in E. split; [|reflexivity].
        intros _. right. now exists t.
      * apply String.eqb_neq in E. split; [discriminate|].
        intros [H|(t' & [= <-] & H)]; [discriminate | contradiction].
    + split; [discriminate|]. intros [H|(t' & H & _)]; discriminate.
Qed.

Lemma ownershipGuard_denial (st : Store) (caller : User) (team : string)
    (denial : Response) :
  ownershipGuard st caller team = Some denial ->
  denial = bad msg_no_team \/ denial = bad msg_not_owner.
Proof.
  unfold ownershipGuard. destruct (negb (admin caller)); [|discriminate].
  destruct (findUserTeam st (user_id caller)) as [t|].
  - destruct (negb _); [|discriminate]. intros [= <-]. now right.
  - intros [= <-]. now left.
Qed.

Lemma createNewProject_outcome (newId : ObjectId) (req : Request) (st : Store) :
  (createNewProject newId req st
   = (Project_save st (new_project newId req st),
      Json (new_project newId req st))
   /\ Project_findOne_team_event st (mkObjectId (body_team (body req)))
                                 (event_id (getTartanHacks st)) = None
   /\ ownershipGuard st (locals_user req) (body_team (body req)) = None)
  \/ (exists m, createNewProject newId req st = (st, bad m)).
Proof.
  unfold createNewProject.
  destruct (Project_findOne_team_event _ _ _) as [q|] eqn:Hfind.
  - right. now exists msg_duplicate.
  - destruct (ownershipGuard _ _ _) as [denial|] eqn:Hguard.
    + right. destruct (ownershipGuard_denial _ _ _ _ Hguard) as [-> | ->];
        eexists; reflexivity.
    + left. repeat split.
Qed.

Lemma createNewProject_Json (newId : ObjectId) (req : Request) (st : Store)
    (p : Project) :
  snd (createNewProject newId req st) = Json p ->
  p = new_project newId req st
  /\ fst (createNewProject newId req st) = Project_save st p
  /\ Project_findOne_team_event st (mkObjectId (body_team (body req)))
                                (event_id (getTartanHacks st)) = None
  /\ ownershipGuard st (locals_user req) (body_team (body req)) = None.
Proof.
  destruct (createNewProject_outcome newId req st) as [(-> & Hf & Hg)|[m ->]];
    simpl; [|discriminate].
  intros [= <-]. auto.
Qed.


(** X1. A caller who is not an admin never gets a project stored for a
    team other than the one [findUserTeam] resolves for that caller: when
    the call changes the store, the caller has a team, its identifier is
    the [team] of the body, and the one new document belongs to it. *)
Theorem createNewProject_participant_own_team
    (newId : ObjectId) (req : Request) (st : Store) :
  admin (locals_user req) = false ->
  fst (createNewProject newId req st) <> st ->
  exists userTeam p,
    findUserTeam st (user_id (locals_user req)) = Some userTeam
    /\ toString (team_id userTeam) = body_team (body req)
    /\ createNewProject newId req st = (Project_save st p, Json p)
    /\ team p = team_id userTeam.
Proof.
  intros Hadmin Hchanged.
  destruct (createNewProject_outcome newId req st) as [(H & _ & Hg)|[m H]].
  - apply ownershipGuard_allows in Hg.
    destruct Hg as [Hg|(t & Ht & Hteam)]; [congruence|].
    exists t, (new_project newId req st). repeat split; try assumption.
    simpl. rewrite <- Hteam. apply ObjectId_eta.
  - rewrite H in Hchanged. simpl in Hchanged. congruence.
Qed.

Lemma createNewProject_participant_own_team_witness :
  exists userTeam p,
    findUserTeam empty_store (user_id alice) = Some userTeam
    /\ toString (team_id userTeam) = id_teamA
    /\ createNewProject (mkObjectId id_new1) (create_req alice id_teamA)
                        empty_store
       = (Project_save empty_store p, Json p)
    /\ team p = team_id userTeam.
Proof.
  apply (createNewProject_participant_own_team (mkObjectId id_new1)
           (create_req alice id_teamA) empty_store).
  - reflexivity.
  - simpl. discriminate.
Defined.



(** X3. Once a project has been created for a team, every further
    [createNewProject] for that team, by any caller and an admin too, is
    rejected as a duplicate and stores nothing. *)
Theorem createNewProject_then_duplicate
    (newId newId' : ObjectId) (req req' : Request) (st : Store) (p : Project) :
  snd (createNewProject newId req st) = Json p ->
  body_team (body req') = body_team (body req) ->
  let st' := fst (createNewProject newId req st) in
  createNewProject newId' req' st' = (st', bad msg_duplicate).
Proof.
  intros Hp Hteam st'.
  destruct (createNewProject_Json newId req st p Hp) as (Hnew & Hst & _ & _).
  apply (createNewProject_duplicate newId' req' st' p).
  - unfold st'. rewrite Hst. simpl. apply in_or_app. right. now left.
  - rewrite Hteam, Hnew. reflexivity.
  - unfold st'. rewrite Hst, Hnew. reflexivity.
Qed.

Lemma createNewProject_then_duplicate_witness :
  let st' := fst (createNewProject (mkObjectId id_new1)
                    (create_req alice id_teamA) empty_store) in
  createNewProject (mkObjectId id_new2) (create_req root id_teamA) st'
  = (st', bad msg_duplicate).
Proof.
  apply (createNewProject_then_duplicate (mkObjectId id_new1)
           (mkObjectId id_new2) (create_req alice id_teamA)
           (create_req root id_teamA) empty_store
           (new_project (mkObjectId id_new1) (create_req alice id_teamA)
                        empty_store)); reflexivity.
Defined.

(** X4. After a participant has created the first project of the team,
    the look-up by that participant's user id answers with this project. *)
Theorem createNewProject_then_getProjectByUserID
    (newId : ObjectId) (req lookup : Request) (st : Store) (p : Project) :
  admin (locals_user req) = false ->
  snd (createNewProject newId req st) = Json p ->
  Project_findOne_team st (mkObjectId (body_team (body req))) = None ->
  params_id lookup = toString (user_id (locals_user req)) ->
  let st' := fst (createNewProject newId req st) in
  getProjectByUserID lookup st' = (st', Json p).
Proof.
  intros Hadmin Hp Hnone Hid st'.
  destruct (createNewProject_Json newId req st p Hp) as (Hnew & Hst & _ & Hg).
  apply ownershipGuard_allows in Hg.
  destruct Hg as [Hg|(t & Ht & Hteam)]; [congruence|].
  rewrite getProjectByUserID_spec, Hid, ObjectId_eta.
  assert (Hteams : findUserTeam st' (user_id (locals_user req)) = Some t)
    by (unfold st'; rewrite Hst; exact Ht).
  rewrite Hteams. f_equal.
  unfold Project_findOne_team, st'. rewrite Hst. simpl.
  rewrite find_app_last.
  assert (Ht' : team_id t = mkObjectId (body_team (body req)))
    by (rewrite <- Hteam; symmetry; apply ObjectId_eta).
  rewrite Ht'. unfold Project_findOne_team in Hnone. rewrite Hnone.
  rewrite Hnew. simpl. now rewrite oid_eqb_refl.
Qed.

Lemma createNewProject_then_getProjectByUserID_witness :
  let st' := fst (createNewProject (mkObjectId id_new1)
                    (create_req alice id_teamA) empty_store) in
  getProjectByUserID (read_req bob id_alice) st'
  = (st', Json (new_project (mkObjectId id_new1) (create_req alice id_teamA)
                            empty_store)).
Proof.
  apply (createNewProject_then_getProjectByUserID (mkObjectId id_new1)
           (create_req alice id_teamA) (read_req bob id_alice) empty_store);
    reflexivity.
Defined.

(** ** Reading projects back *)

(** X5. [getProjectByTeamID] does not look at the event: when the team
    already had a project, necessarily of another event, before a
    successful [createNewProject], the look-up by team id still answers
    with that earlier project and not with the one just created. *)
Theorem getProjectByTeamID_answers_earliest
    (newId : ObjectId) (req lookup : Request) (st : Store)
    (p earlier : Project) :
  snd (createNewProject newId req st) = Json p ->
  Project_findOne_team st (mkObjectId (body_team (body req))) = Some earlier ->
  params_id lookup = body_team (body req) ->
  let st' := fst (createNewProject newId req st) in
  getProjectByTeamID lookup st' = (st', Json earlier)
  /\ event earlier <> event p
  /\ team earlier = team p.
Proof.
  intros Hp Hearlier Hid st'.
  destruct (createNewProject_Json newId req st p Hp) as (Hnew & Hst & Hfree & _).
  pose proof (find_some _ _ Hearlier) as [Hin Hteam].
  apply oid_eqb_eq in Hteam.
  split; [|split].
  - unfold getProjectByTeamID, Project_findOne_team, st'. rewrite Hid, Hst.
    simpl. rewrite find_app_last.
    unfold Project_findOne_team in Hearlier. now rewrite Hearlier.
  - intros Hev. unfold Project_findOne_team_event in Hfree.
    pose proof (find_none _ _ Hfree earlier Hin) as Hno.
    apply not_true_iff_false in Hno. apply Hno.
    apply team_event_filter_true. split; [exact Hteam|].
    rewrite Hev, Hnew. reflexivity.
  - rewrite Hteam, Hnew. reflexivity.
Qed.

Lemma getProjectByTeamID_answers_earliest_witness :
  let st' := fst (createNewProject (mkObjectId id_new1)
                    (create_req alice id_teamA) store_old) in
  getProjectByTeamID (read_req alice id_teamA) st' = (st', Json projOld)
  /\ event projOld
     <> event (new_project (mkObjectId id_new1) (create_req alice id_teamA)
                           store_old)
  /\ team projOld
     = team (new_project (mkObjectId id_new1) (create_req alice id_teamA)
                         store_old).
Proof.
  apply (getProjectByTeamID_answers_earliest (mkObjectId id_new1)
           (create_req alice id_teamA) (read_req alice id_teamA) store_old);
    reflexivity.
Defined.

(** X6. A project created under an identifier no stored project has is
    read back by [getProjectByID] under that identifier, and
    [getAllProjects] lists the earlier projects, in their order, followed
    by the new one. *)
Theorem createNewProject_then_read
    (newId : ObjectId) (req lookup : Request) (st : Store) (p : Project) :
  Project_findById st newId = None ->
  snd (createNewProject newId req st) = Json p ->
  params_id lookup = toString newId ->
  let st' := fst (createNewProject newId req st) in
  getProjectByID lookup st' = (st', JsonResult (Some p))
  /\ getAllProjects lookup st' = (st', JsonList (Projects st ++ [p])%list).
Proof.
  intros Hfresh Hp Hid st'.
  destruct (createNewProject_Json newId req st p Hp) as (Hnew & Hst & _ & _).
  split.
  - unfold getProjectByID. rewrite Hid, ObjectId_eta. do 2 f_equal.
    unfold Project_findById, st'. rewrite Hst. simpl.
    rewrite find_app_last. unfold Project_findById in Hfresh.
    rewrite Hfresh, Hnew. simpl. now rewrite oid_eqb_refl.
  - unfold getAllProjects, st'. now rewrite Hst.
Qed.

Lemma createNewProject_then_read_witness :
  let p := new_project (mkObjectId id_new1) (create_req bob id_teamB) store1 in
  let st' := fst (createNewProject (mkObjectId id_new1)
                    (create_req bob id_teamB) store1) in
  getProjectByID (read_req carol id_new1) st' = (st', JsonResult (Some p))
  /\ getAllProjects (read_req carol id_new1) st'
     = (st', JsonList (Projects store1 ++ [p])%list).
Proof.
  apply (createNewProject_then_read (mkObjectId id_new1)
           (create_req bob id_teamB) (read_req carol id_new1) store1);
    reflexivity.
Defined.

(** X7. A sequence of [createNewProject] calls only appends: the stored
    projects stay as they were and in their order, at most one project is
    added per call, every added project is of the current event and is
    entered in no prize, and prizes, teams and event are not touched. *)
Theorem run_creates_appends (calls : list (ObjectId * Request)) (st : Store) :
  exists added,
    Projects (run_creates calls st) = (Projects st ++ added)%list
    /\ List.length added <= List.length calls
    /\ Forall (fun p => event p = event_id (getTartanHacks st)
                        /\ prizes p = []) added
    /\ Prizes (run_creates calls st) = Prizes st
    /\ Teams (run_creates calls st) = Teams st
    /\ tartanHacks (run_creates calls st) = tartanHacks st.
Proof.
  revert st. induction calls as [|[newId req] rest IH]; intros st; simpl.
  - exists []. rewrite app_nil_r. repeat split; auto.
  - destruct (createNewProject_outcome newId req st) as [(H & _ & _)|[m H]];
      rewrite H; simpl.
    + destruct (IH (Project_save st (new_project newId req st)))
        as (added & Hp & Hlen & Hall & Hz & Ht & He).
      exists (new_project newId req st :: added). simpl in *.
      rewrite Hp, <- app_assoc. repeat split; auto; lia.
    + destruct (IH st) as (added & Hp & Hlen & Hall & Hz & Ht & He).
      exists added. repeat split; auto; lia.
Qed.

(** ** Prize entry: what it changes and what it keeps *)

Lemma enterProject_store (req : Request) (st : Store) :
  fst (enterProject req st) = st
  \/ exists project prize,
       Project_findById st (mkObjectId (params_id req)) = Some project
       /\ Prize_findById st (mkObjectId (query_prizeID req)) = Some prize
       /\ fst (enterProject req st)
          = Project_updateOne_addToSet st project [prize_id prize].
Proof.
  destruct (Project_findById st (mkObjectId (params_id req))) as [project|] eqn:Hp.
  - destruct (Prize_findById st (mkObjectId (query_prizeID req)))
      as [prize|] eqn:Hz.
    + right. exists project, prize.
      now rewrite (enterProject_success st req project prize Hp Hz).
    + left. unfold enterProject. now rewrite Hp, Hz.
  - left. unfold enterProject. now rewrite Hp.
Qed.

Lemma Prize_findById_id (st : Store) (id : ObjectId) (z : Prize) :
  Prize_findById st id = Some z -> prize_id z = id.
Proof.
  intros H. apply find_some in H. destruct H as [_ H].
  now apply oid_eqb_eq in H.
Qed.

Lemma In_addToSet (x z : ObjectId) (l : list ObjectId) :
  In z (addToSet x l) <-> z = x \/ In z l.
Proof.
  unfold addToSet. destruct (existsb (oid_eqb x) l) eqn:E.
  - split; [tauto|]. intros [->|H]; [|exact H].
    apply existsb_exists in E. destruct E as (y & Hin & Heq).
    apply oid_eqb_eq in Heq. now subst.
  - rewrite in_app_iff. simpl. split.
    + intros [H|[->|[]]]; tauto.
    + intros [->|H]; tauto.
Qed.

Lemma NoDup_addToSet (x : ObjectId) (l : list ObjectId) :
  NoDup l -> NoDup (addToSet x l).
Proof.
  intros Hnd. unfold addToSet. destruct (existsb (oid_eqb x) l) eqn:E.
  - exact Hnd.
  - apply NoDup_app; [exact Hnd | repeat constructor; simpl; tauto |].
    intros y Hy [Heq|[]]. subst y.
    assert (existsb (oid_eqb x) l = true) as E'
      by (apply existsb_exists; exists x; split; [exact Hy | apply oid_eqb_refl]).
    congruence.
Qed.

Lemma only_prize_added_refl (entered : ObjectId) (p : Project) :
  only_prize_added entered p p.
Proof. unfold only_prize_added. repeat split; auto. Qed.

Lemma only_prize_added_addToSet (entered : ObjectId) (p : Project) :
  only_prize_added entered p (addToSet_prizes [entered] p).
Proof.
  unfold only_prize_added. simpl. repeat split; auto.
  - intros z Hz. apply In_addToSet. now right.
  - intros z Hz. apply In_addToSet in Hz. tauto.
Qed.

(** X8. Whatever the request, [enterProject] adds and removes no
    project and changes no field of any project but its prizes; no project
    loses a prize, and a prize that appears is the one named in the query.
    Prizes, teams and event are left as they were. *)
Theorem enterProject_only_adds_the_prize (req : Request) (st : Store) :
  let st' := fst (enterProject req st) in
  Forall2 (only_prize_added (mkObjectId (query_prizeID req)))
          (Projects st) (Projects st')
  /\ Prizes st' = Prizes st
  /\ Teams st' = Teams st
  /\ tartanHacks st' = tartanHacks st.
Proof.
  intros st'. unfold st'.
  destruct (enterProject_store req st) as [-> | (project & prize & _ & Hz & ->)].
  - repeat split.
    induction (Projects st); constructor;
      [apply only_prize_added_refl | assumption].
  - simpl. repeat split.
    apply Prize_findById_id in Hz. rewrite Hz.
    apply Forall2_update_first.
    + apply only_prize_added_refl.
    + apply only_prize_added_addToSet.
Qed.

Lemma Project_findById_has_key (st : Store) (id : ObjectId) :
  Project_findById st id = find (has_key project_id id) (Projects st).
Proof. reflexivity. Qed.

Lemma enterProject_findById (req : Request) (st : Store) (q : ObjectId) :
  Project_findById (fst (enterProject req st)) q =
  match Project_findById st (mkObjectId (params_id req)),
        Prize_findById st (mkObjectId (query_prizeID req)) with
  | Some project, Some _ =>
      if oid_eqb q (mkObjectId (params_id req))
      then Some (addToSet_prizes [mkObjectId (query_prizeID req)] project)
      else Project_findById st q
  | _, _ => Project_findById st q
  end.
Proof.
  destruct (Project_findById st (mkObjectId (params_id req)))
    as [project|] eqn:Hp.
  - destruct (Prize_findById st (mkObjectId (query_prizeID req)))
      as [prize|] eqn:Hz.
    + rewrite (enterProject_success st req project prize Hp Hz). simpl.
      rewrite (Prize_findById_id _ _ _ Hz).
      destruct (oid_eqb q (mkObjectId (params_id req))) eqn:E.
      * apply oid_eqb_eq in E. subst q.
        now apply Project_findById_updateOne.
      * apply oid_eqb_neq in E.
        rewrite !Project_findById_has_key. simpl.
        rewrite (Project_findById_id _ _ _ Hp).
        apply (find_update_first_other project_id); [reflexivity | congruence].
    + unfold enterProject. now rewrite Hp, Hz.
  - unfold enterProject. now rewrite Hp.
Qed.

Lemma enterProject_Prizes (req : Request) (st : Store) :
  Prizes (fst (enterProject req st)) = Prizes st.
Proof.
  destruct (enterProject_store req st) as [-> | (p & z & _ & _ & ->)];
    reflexivity.
Qed.

Lemma enterProject_keeps_presence (req : Request) (st : Store) (q : ObjectId) :
  Project_findById (fst (enterProject req st)) q = None
  <-> Project_findById st q = None.
Proof.
  rewrite enterProject_findById.
  destruct (Project_findById st (mkObjectId (params_id req))) as [p|] eqn:Hp;
    [|tauto].
  destruct (Prize_findById st _); [|tauto].
  destruct (oid_eqb q (mkObjectId (params_id req))) eqn:E; [|tauto].
  apply oid_eqb_eq in E. subst q. rewrite Hp. split; discriminate.
Qed.

Lemma entered_in_enterProject (req : Request) (st : Store)
    (q z : ObjectId) :
  entered_in (fst (enterProject req st)) q z
  <-> entered_in st q z
      \/ (q = mkObjectId (params_id req)
          /\ z = mkObjectId (query_prizeID req)
          /\ Project_findById st (mkObjectId (params_id req)) <> None
          /\ Prize_findById st (mkObjectId (query_prizeID req)) <> None).
Proof.
  unfold entered_in. rewrite enterProject_findById.
  destruct (Project_findById st (mkObjectId (params_id req))) as [p|] eqn:Hp.
  - destruct (Prize_findById st (mkObjectId (query_prizeID req))) as [w|].
    + destruct (oid_eqb q (mkObjectId (params_id req))) eqn:E.
      * apply oid_eqb_eq in E. subst q. rewrite Hp. split.
        -- intros (p' & [= <-] & Hin). simpl in Hin.
           apply In_addToSet in Hin. destruct Hin as [-> | Hin].
           ++ right. repeat split; discriminate.
           ++ left. now exists p.
        -- intros [(p' & [= <-] & Hin) | (_ & -> & _)];
             eexists; (split; [reflexivity|]); simpl; apply In_addToSet; tauto.
      * apply oid_eqb_neq in E. split; [tauto|].
        intros [H | (Hq & _)]; [exact H | contradiction].
    + split; [tauto|]. intros [H | (_ & _ & _ & H)]; [exact H | congruence].
  - split; [tauto|]. intros [H | (_ & _ & H & _)]; [exact H | congruence].
Qed.

(** X9. Two prize entries commute as far as membership goes: entering
    by request [ra] and then by [rb], or the other way round, leaves every
    project entered in the same prizes (the order inside the array may
    differ), for any two requests, valid or not. *)
Theorem enterProject_order_irrelevant
    (ra rb : Request) (st : Store) (q z : ObjectId) :
  entered_in (fst (enterProject rb (fst (enterProject ra st)))) q z
  <-> entered_in (fst (enterProject ra (fst (enterProject rb st)))) q z.
Proof.
  rewrite !entered_in_enterProject.
  assert (Hpres : forall r i,
    Project_findById (fst (enterProject r st)) i <> None
    <-> Project_findById st i <> None)
    by (intros r i; now rewrite enterProject_keeps_presence).
  unfold Prize_findById. rewrite !enterProject_Prizes.
  rewrite !Hpres. tauto.
Qed.

(** ** Invariants the handlers keep *)

Lemma Forall_remove_first {A : Type} (P : A -> Prop) (f : A -> bool)
    (l : list A) :
  Forall P l -> Forall P (remove_first f l).
Proof.
  rewrite !Forall_forall. intros H x Hx. apply H.
  now apply remove_first_incl in Hx.
Qed.

Lemma one_project_per_team_store1 : one_project_per_team store1.
Proof.
  intros t e. unfold count_for. simpl.
  destruct (team_event_filter t e projA); simpl; lia.
Defined.

Lemma unique_project_ids_store2 : unique_project_ids store2.
Proof.
  unfold unique_project_ids. simpl.
  repeat constructor; simpl; intuition discriminate.
Defined.


Lemma enterProject_preserves (req : Request) (st : Store) :
  one_project_per_team st -> one_project_per_team (fst (enterProject req st)).
Proof.
  intros Hinv.
  destruct (enterProject_store req st) as [-> | (p & z & _ & _ & ->)];
    [exact Hinv|].
  intros t e. unfold count_for. simpl.
  rewrite filter_update_first_length by reflexivity. apply Hinv.
Qed.

Lemma deleteProject_preserves (req : Request) (st : Store) :
  one_project_per_team st -> one_project_per_team (fst (deleteProject req st)).
Proof.
  intros Hinv t e. unfold count_for. simpl.
  etransitivity; [apply filter_remove_first_length | apply Hinv].
Qed.

Lemma createNewProject_keeps_sets (newId : ObjectId) (req : Request)
    (st : Store) :
  prizes_are_sets st -> prizes_are_sets (fst (createNewProject newId req st)).
Proof.
  unfold prizes_are_sets. intros Hsets.
  destruct (createNewProject_outcome newId req st) as [(-> & _)|[m ->]];
    simpl; [|exact Hsets].
  apply Forall_app. split; [exact Hsets|]. repeat constructor.
Qed.

Lemma enterProject_keeps_sets (req : Request) (st : Store) :
  prizes_are_sets st -> prizes_are_sets (fst (enterProject req st)).
Proof.
  unfold prizes_are_sets. intros Hsets.
  destruct (enterProject_store req st) as [-> | (p & z & _ & _ & ->)];
    [exact Hsets|].
  simpl. apply Forall_update_first; [|exact Hsets].
  intros x Hx. simpl. now apply NoDup_addToSet.
Qed.

Lemma deleteProject_keeps_sets (req : Request) (st : Store) :
  prizes_are_sets st -> prizes_are_sets (fst (deleteProject req st)).
Proof.
  unfold prizes_are_sets. intros Hsets. simpl. now apply Forall_remove_first.
Qed.

Lemma apply_set_id (u : Update) (p : Project) :
  project_id (apply_set u p) = project_id p.
Proof. reflexivity. Qed.

(** X10. Identifiers stay unique: when no two stored projects share an
    identifier, none do after a creation under an identifier that is not
    stored yet, nor after [enterProject], [deleteProject] or
    [deletePrize]. *)
Theorem unique_project_ids_kept
    (newId : ObjectId) (req : Request) (st : Store) :
  unique_project_ids st ->
  (Project_findById st newId = None ->
   unique_project_ids (fst (createNewProject newId req st)))
  /\ unique_project_ids (fst (enterProject req st))
  /\ unique_project_ids (fst (deleteProject req st))
  /\ unique_project_ids (fst (deletePrize req st)).
Proof.
  unfold unique_project_ids. intros Huniq. split; [|split; [|split]].
  - intros Hfresh.
    destruct (createNewProject_outcome newId req st) as [(-> & _)|[m ->]];
      simpl; [|exact Huniq].
    rewrite map_app. simpl. apply NoDup_app; [exact Huniq | | ].
    + repeat constructor. simpl. tauto.
    + intros i Hi [<-|[]]. revert Hi.
      now apply (find_key_none_not_in project_id).
  - destruct (enterProject_store req st) as [-> | (p & z & _ & _ & ->)];
      [exact Huniq|].
    simpl. now rewrite map_update_first by reflexivity.
  - simpl. now apply NoDup_map_remove_first.
  - exact Huniq.
Qed.

Lemma unique_project_ids_kept_witness :
  unique_project_ids
    (fst (createNewProject (mkObjectId id_new1) (create_req root id_teamB)
            (fst (deleteProject (read_req root id_projB) store2)))).
Proof.
  pose proof (unique_project_ids_kept (mkObjectId id_new1)
                (read_req root id_projB) store2 unique_project_ids_store2)
    as (_ & _ & Hdel & _).
  apply (unique_project_ids_kept (mkObjectId id_new1)
           (create_req root id_teamB) _ Hdel).
  reflexivity.
Defined.

(** ** Deletion and what follows it *)

Lemma filter_nil_find_none {A : Type} (f : A -> bool) (l : list A) :
  filter f l = [] -> find f l = None.
Proof.
  induction l as [|x l IH]; simpl; [reflexivity|].
  destruct (f x); [discriminate | exact IH].
Qed.

Lemma deleteProject_findById (req : Request) (st : Store) :
  unique_project_ids st ->
  Project_findById (fst (deleteProject req st)) (mkObjectId (params_id req))
  = None
  /\ forall j, j <> mkObjectId (params_id req) ->
               Project_findById (fst (deleteProject req st)) j
               = Project_findById st j.
Proof.
  intros Huniq. rewrite !Project_findById_has_key. simpl. split.
  - now apply (find_remove_first_key project_id).
  - intros j Hj. rewrite Project_findById_has_key.
    apply (find_remove_first_other project_id). congruence.
Qed.

(** X11. With unique identifiers, a project deleted under its
    well-formed id is gone for the other handlers: [getProjectByID]
    answers [null] for the id, a prize entry for it is rejected as an
    invalid project and stores nothing, a second deletion changes nothing
    and still reports success, and every other project is found as
    before. *)
Theorem deleteProject_then (req : Request) (st : Store) :
  well_formed_id (params_id req) = true ->
  unique_project_ids st ->
  let st' := fst (deleteProject req st) in
  getProjectByID req st' = (st', JsonResult None)
  /\ (forall entry, params_id entry = params_id req ->
        enterProject entry st' = (st', bad msg_invalid_project))
  /\ deleteProject req st' = (st', Ok msg_deleted)
  /\ (forall j, j <> mkObjectId (params_id req) ->
        Project_findById st' j = Project_findById st j).
Proof.
  intros _ Huniq st'.
  destruct (deleteProject_findById req st Huniq) as [Hgone Hothers].
  fold st' in Hgone, Hothers.
  split; [|split; [|split]].
  - unfold getProjectByID. now rewrite Hgone.
  - intros entry Hid. unfold enterProject. now rewrite Hid, Hgone.
  - unfold deleteProject. f_equal.
    unfold Project_findByIdAndDelete.
    unfold Project_findById in Hgone.
    rewrite (remove_first_absent _ _ Hgone). now destruct st'.
  - exact Hothers.
Qed.

Lemma deleteProject_then_witness :
  let st' := fst (deleteProject (read_req alice id_projA) store2) in
  getProjectByID (read_req alice id_projA) st' = (st', JsonResult None)
  /\ enterProject (by_id_req alice id_projA id_gold "") st'
     = (st', bad msg_invalid_project)
  /\ Project_findById st' (mkObjectId id_projB) = Some projB.
Proof.
  destruct (deleteProject_then (read_req alice id_projA) store2 eq_refl
              unique_project_ids_store2) as (H1 & H2 & _ & H4).
  split; [exact H1|]. split.
  - apply H2. reflexivity.
  - rewrite H4; [reflexivity | discriminate].
Defined.

(** X12. Deleting the project of a team frees the team's place for the
    event: when the collection has at most one project per (team, event)
    pair and the deleted project is the one of the team for the current
    event, a creation for that team by a caller the ownership block lets
    through succeeds. *)
Theorem deleteProject_then_createNewProject
    (newId : ObjectId) (del create : Request) (st : Store) (p : Project) :
  one_project_per_team st ->
  Project_findById st (mkObjectId (params_id del)) = Some p ->
  team p = mkObjectId (body_team (body create)) ->
  event p = event_id (getTartanHacks st) ->
  ownershipGuard st (locals_user create) (body_team (body create)) = None ->
  let st' := fst (deleteProject del st) in
  createNewProject newId create st'
  = (Project_save st' (new_project newId create st'),
     Json (new_project newId create st')).
Proof.
  intros Hinv Hp Hteam Hevent Hguard st'.
  assert (Hfree : Project_findOne_team_event st'
                    (mkObjectId (body_team (body create)))
                    (event_id (getTartanHacks st')) = None).
  { unfold Project_findOne_team_event, st'. simpl.
    destruct (remove_first_present _ _ p Hp) as (l1 & l2 & Hl & -> & _).
    apply filter_nil_find_none.
    specialize (Hinv (mkObjectId (body_team (body create)))
                     (event_id (getTartanHacks st))).
    unfold count_for in Hinv. rewrite Hl, filter_app in Hinv. simpl in Hinv.
    assert (Hmatch : team_event_filter (mkObjectId (body_team (body create)))
                       (event_id (getTartanHacks st)) p = true)
      by now apply team_event_filter_true.
    unfold getTartanHacks in *. rewrite Hmatch in Hinv.
    rewrite length_app in Hinv. simpl in Hinv. rewrite filter_app.
    destruct (filter _ l1); [|simpl in Hinv; lia].
    destruct (filter _ l2); [reflexivity | simpl in Hinv; lia]. }
  rewrite (createNewProject_fresh_pair newId create st' Hfree).
  assert (Hguard' : ownershipGuard st' (locals_user create)
                      (body_team (body create)) = None) by exact Hguard.
  now rewrite Hguard'.
Qed.

Lemma deleteProject_then_createNewProject_witness :
  let st' := fst (deleteProject (read_req alice id_projA) store1) in
  createNewProject (mkObjectId id_new1) (create_req alice id_teamA) st'
  = (Project_save st' (new_project (mkObjectId id_new1)
                                   (create_req alice id_teamA) st'),
     Json (new_project (mkObjectId id_new1) (create_req alice id_teamA) st')).
Proof.
  apply (deleteProject_then_createNewProject (mkObjectId id_new1)
           (read_req alice id_projA) (create_req alice id_teamA) store1 projA
           one_project_per_team_store1); reflexivity.
Defined.

(** ** Deleting a prize *)



(** ** Editing a project *)

Section UpdateFirst.
Context {A : Type}.
Variables (f : A -> bool) (g : A -> A).

Lemma In_update_first_miss (l : list A) (x : A) :
  In x l -> f x = false -> In x (update_first f g l).
Proof.
  intros Hin Hx. induction l as [|y l IH]; simpl in *; [contradiction|].
  destruct Hin as [-> | Hin].
  - rewrite Hx. now left.
  - destruct (f y); right; auto.
Qed.

Lemma In_update_first_hit (l : list A) (x : A) :
  find f l = Some x -> In (g x) (update_first f g l).
Proof.
  induction l as [|y l IH]; simpl; [discriminate|].
  destruct (f y).
  - intros [= ->]. now left.
  - intros H. right. auto.
Qed.

Lemma update_first_same (l : list A) :
  (forall x, g x = x) -> update_first f g l = l.
Proof.
  intros Hg. induction l as [|y l IH]; simpl; [reflexivity|].
  destruct (f y); [now rewrite Hg | now rewrite IH].
Qed.
End UpdateFirst.

Lemma two_in_length {A : Type} (l : list A) (x y : A) :
  In x l -> In y l -> x <> y -> 2 <= List.length l.
Proof.
  intros Hx Hy Hne. destruct (in_split x l Hx) as (l1 & l2 & ->).
  rewrite length_app. simpl.
  apply in_app_or in Hy. destruct Hy as [Hy | [Hy | Hy]].
  - destruct l1; [contradiction | simpl; lia].
  - congruence.
  - destruct l2; [contradiction | simpl; lia].
Qed.

Lemma apply_set_idem (u : Update) (p : Project) :
  apply_set u (apply_set u p) = apply_set u p.
Proof.
  destruct u as [a b c d e f g h]. unfold apply_set. simpl.
  destruct a, b, c, d, e, f, g, h; reflexivity.
Qed.

Lemma apply_set_no_update (p : Project) : apply_set no_update p = p.
Proof. now destruct p. Qed.

(** X14. For a stored project and a body whose identifiers are well
    formed, [editProject] answers with the project as updated, the fields
    of the body replacing the stored ones and the identifier staying; the
    updated project is what is found under the id afterwards, every other
    project is found as before, and sending the same body again changes
    nothing more. *)
Theorem editProject_stored
    (reqBody : Update) (req : Request) (st : Store) (p : Project) :
  well_formed_update reqBody = true ->
  Project_findById st (mkObjectId (params_id req)) = Some p ->
  let st' := fst (editProject reqBody req st) in
  snd (editProject reqBody req st) = Some (Json (apply_set reqBody p))
  /\ project_id (apply_set reqBody p) = mkObjectId (params_id req)
  /\ Project_findById st' (mkObjectId (params_id req))
     = Some (apply_set reqBody p)
  /\ (forall j, j <> mkObjectId (params_id req) ->
        Project_findById st' j = Project_findById st j)
  /\ editProject reqBody req st' = (st', Some (Json (apply_set reqBody p)))
  /\ Prizes st' = Prizes st /\ Teams st' = Teams st
  /\ tartanHacks st' = tartanHacks st.
Proof.
  intros _ Hp st'.
  assert (Hst' : st' = fst (Project_findByIdAndUpdate st
                              (mkObjectId (params_id req)) reqBody)).
  { unfold st', editProject, Project_findByIdAndUpdate.
    now destruct (option_map _ _). }
  assert (Hfound : Project_findById st' (mkObjectId (params_id req))
                   = Some (apply_set reqBody p)).
  { rewrite Hst'. unfold Project_findById, Project_findByIdAndUpdate in *.
    simpl. rewrite find_update_first by reflexivity. now rewrite Hp. }
  split; [|split; [|split; [|split; [|split]]]].
  - unfold editProject, Project_findByIdAndUpdate. now rewrite Hp.
  - simpl. now apply (Project_findById_id st).
  - exact Hfound.
  - intros j Hj. rewrite Hst', !Project_findById_has_key. simpl.
    apply (find_update_first_other project_id); [reflexivity | congruence].
  - unfold editProject, Project_findByIdAndUpdate. rewrite Hfound. simpl.
    rewrite apply_set_idem. f_equal.
    rewrite Hst'. unfold Project_findByIdAndUpdate. simpl.
    rewrite update_first_idem; [reflexivity | reflexivity |].
    intros x. apply apply_set_idem.
  - rewrite Hst'. repeat split.
Qed.

Lemma editProject_stored_witness :
  let u := mkUpdate (Some "Alpha II") None None None None None None
                    (Some [id_gold]) in
  let st' := fst (editProject u (read_req alice id_projA) store2) in
  Project_findById st' (mkObjectId id_projA) = Some (apply_set u projA)
  /\ Project_findById st' (mkObjectId id_projB) = Some projB.
Proof.
  intros u st'.
  destruct (editProject_stored u (read_req alice id_projA) store2 projA
              eq_refl eq_refl) as (_ & _ & H3 & H4 & _).
  split; [exact H3|]. rewrite H4; [reflexivity | discriminate].
Defined.

(** X15. [editProject] adds and removes no project and changes no
    identifier, whatever the body; it leaves the store as it is when the
    id names no project, and when the body carries none of the fields of a
    project. *)
Theorem editProject_without_effect
    (reqBody : Update) (req : Request) (st : Store) :
  map project_id (Projects (fst (editProject reqBody req st)))
  = map project_id (Projects st)
  /\ (Project_findById st (mkObjectId (params_id req)) = None ->
      fst (editProject reqBody req st) = st)
  /\ fst (editProject no_update req st) = st.
Proof.
  split; [|split].
  - unfold editProject, Project_findByIdAndUpdate.
    destruct (option_map _ _); simpl;
      now rewrite map_update_first by reflexivity.
  - intros Hnone. unfold editProject, Project_findByIdAndUpdate.
    rewrite Hnone. simpl. unfold Project_findById in Hnone.
    rewrite (update_first_absent _ _ _ Hnone). now destruct st.
  - unfold editProject, Project_findByIdAndUpdate.
    destruct (option_map _ _); simpl;
      rewrite (update_first_same _ _ _ apply_set_no_update); now destruct st.
Qed.

(** X16. [editProject] does not keep the rule of one project per
    (team, event) pair: moving a stored project, by a body with
    well-formed identifiers that sets [team], to the team of another
    stored project of the same event leaves that pair with two projects. *)
Theorem editProject_breaks_uniqueness
    (reqBody : Update) (req : Request) (st : Store) (p q : Project) :
  well_formed_update reqBody = true ->
  Project_findById st (mkObjectId (params_id req)) = Some p ->
  In q (Projects st) ->
  project_id q <> project_id p ->
  event q = event p ->
  set_event reqBody = None ->
  option_map mkObjectId (set_team reqBody) = Some (team q) ->
  2 <= count_for (team q) (event q) (fst (editProject reqBody req st))
  /\ ~ one_project_per_team (fst (editProject reqBody req st)).
Proof.
  intros _ Hp Hq Hne Hev Hset_event Hset_team.
  assert (Hcount : 2 <= count_for (team q) (event q)
                          (fst (editProject reqBody req st))).
  { pose proof (Project_findById_id st _ p Hp) as Hid.
    unfold count_for, editProject, Project_findByIdAndUpdate. rewrite Hp.
    simpl.
    apply (two_in_length _ q (apply_set reqBody p)).
    - apply filter_In. split.
      + apply In_update_first_miss; [exact Hq|].
        apply oid_eqb_neq. congruence.
      + apply team_event_filter_true. auto.
    - apply filter_In. split.
      + now apply In_update_first_hit.
      + apply team_event_filter_true. simpl.
        rewrite Hset_team, Hset_event. simpl. auto.
    - intros Heq. apply Hne. rewrite Heq. reflexivity. }
  split; [exact Hcount|].
  intros Hinv. specialize (Hinv (team q) (event q)). lia.
Qed.

Lemma editProject_breaks_uniqueness_witness :
  one_project_per_team store2
  /\ ~ one_project_per_team
        (fst (editProject (move_to_team id_teamA) (read_req bob id_projB)
                store2)).
Proof.
  split.
  - intros t e. unfold count_for. simpl.
    destruct (team_event_filter t e projA) eqn:Ea;
      destruct (team_event_filter t e projB) eqn:Eb; simpl; try lia.
    apply team_event_filter_true in Ea. apply team_event_filter_true in Eb.
    destruct Ea as [Ea _], Eb as [Eb _]. rewrite <- Ea in Eb. discriminate.
  - apply (editProject_breaks_uniqueness (move_to_team id_teamA)
             (read_req bob id_projB) store2 projB projA).
    + reflexivity.
    + reflexivity.
    + simpl. now left.
    + discriminate.
    + reflexivity.
    + reflexivity.
    + reflexivity.
Defined.

(** ** Any sequence of calls *)

(** X17. Whatever sequence of [createNewProject], [enterProject],
    [deleteProject] and [deletePrize] calls is served, in whatever order
    and with whatever requests, a store with at most one project per
    (team, event) pair and with duplicate-free prizes stays so. *)
Theorem run_keeps_invariants (calls : list Call) (st : Store) :
  one_project_per_team st -> prizes_are_sets st ->
  one_project_per_team (run calls st) /\ prizes_are_sets (run calls st).
Proof.
  revert st. induction calls as [|c rest IH]; intros st Hone Hsets; simpl.
  - now split.
  - apply IH.
    + destruct c as [newId req | req | req | req]; simpl.
      * now apply createNewProject_preserves.
      * now apply enterProject_preserves.
      * now apply deleteProject_preserves.
      * exact Hone.
    + destruct c as [newId req | req | req | req]; simpl.
      * now apply createNewProject_keeps_sets.
      * now apply enterProject_keeps_sets.
      * now apply deleteProject_keeps_sets.
      * exact Hsets.
Qed.

Lemma run_keeps_invariants_witness :
  let calls := [CallEnterProject (by_id_req alice id_projA id_gold "");
                CallDeleteProject (read_req alice id_projA);
                CallCreateNewProject (mkObjectId id_new1)
                                     (create_req alice id_teamA);
                CallCreateNewProject (mkObjectId id_new2)
                                     (create_req root id_teamA);
                CallDeletePrize (read_req root id_gold)] in
  one_project_per_team (run calls store1) /\ prizes_are_sets (run calls store1).
Proof.
  apply run_keeps_invariants.
  - exact one_project_per_team_store1.
  - unfold prizes_are_sets. simpl. repeat constructor.
Defined.
